(** * AgroNova: the block chain and product ledger of [src/App.jsx]

    A shallow embedding of the state-carrying part of the [AgronovaPrototype]
    component: the utilities [pseudoHash] and [makeBlock], the seeded initial
    state, the shared helpers [appendBlock], [listProduct] and [orderProduct],
    the Farmer form's [validateForm] and upload handler, the Broker view's
    [available] list, the Consumer view's [record] lookup and the Admin view's
    [resetBlockchain].

    JavaScript strings are sequences of UTF-16 code units; numbers are IEEE
    doubles, of which only the sign test [x <= 0] and the printed form matter
    here.  The wall clock ([nowISO]), [Math.random] and [window.confirm] are
    inputs of the operation that consults them. *)

From Stdlib Require Import ZArith NArith QArith String Ascii Lia.
From stdpp Require Import base decidable option list numbers.

Set Default Proof Using "Type".

(** ** JavaScript strings *)

(** A string is its sequence of UTF-16 code units. *)
Abbreviation jsstring := (list N).

(** The code units of an ASCII literal of the source. *)
Definition js (s : string) : jsstring := map N_of_ascii (list_ascii_of_string s).
Arguments js s%_string.

(** Truthiness of a string: every string but the empty one. *)
Definition truthy (s : jsstring) : bool :=
  match s with [] => false | _ :: _ => true end.

(** [s.slice(from, to)] for [0 <= from <= to]. *)
Definition slice (from to : nat) (s : jsstring) : jsstring :=
  take (to - from) (drop from s).

(** [s.padStart(targetLength, c)] for a one-character pad string. *)
Definition padStart (targetLength : nat) (c : N) (s : jsstring) : jsstring :=
  replicate (targetLength - length s) c ++ s.

(** [toUpperCase] on one code unit.  The strings it is applied to here are
    made of hexadecimal digits, on which it is the ASCII mapping; other code
    units are left as they are. *)
Definition upperUnit (c : N) : N :=
  if ((97 <=? c) && (c <=? 122))%N then (c - 32)%N else c.

Definition toUpperCase (s : jsstring) : jsstring := map upperUnit s.

(** The digit [d] (below 36) as [Number.prototype.toString(radix)] prints it:
    0-9, then a-z. *)
Definition digitUnit (d : Z) : N :=
  Z.to_N (if (d <? 10)%Z then 48 + d else 87 + d)%Z.

(** Digits of a non-negative integer, most significant first; [fuel] bounds
    the number of digits. *)
Fixpoint digitsRadix (radix : Z) (fuel : nat) (n : Z) : jsstring :=
  match fuel with
  | O => []
  | S fuel' =>
      if (n <? radix)%Z then [digitUnit n]
      else digitsRadix radix fuel' (n / radix)%Z ++ [digitUnit (n mod radix)%Z]
  end.

(** [n.toString(radix)] for a non-negative integer [n]: the binary length of
    [n] is enough fuel for every radix from 2 on. *)
Definition toStringRadix (radix : Z) (n : Z) : jsstring :=
  digitsRadix radix (S (Z.to_nat (Z.log2 n))) n.

(** ** Utilities of the source *)

(** The loop of [pseudoHash]: [h = (h * 31 + input.charCodeAt(i)) >>> 0].
    [h] stays below [2^32], so the product is exact in a double and [>>> 0]
    is reduction modulo [2^32]. *)
Definition pseudoHash_h (input : jsstring) : Z :=
  fold_left (fun h c => (h * 31 + Z.of_N c) mod 2 ^ 32)%Z input 0%Z.

(** [pseudoHash(input)].  [rnd] is the value of the expression
    [Math.random().toString(16)] of this call, which has the form [0.hhhh]. *)
Definition pseudoHash (input rnd : jsstring) : jsstring :=
  toUpperCase (padStart 8 48 (toStringRadix 16 (pseudoHash_h input)) ++ slice 2 10 rnd).

(** ** Numbers and the host's conversions *)

(** A JavaScript number, as far as this program looks at it: not-a-number,
    an infinity, or a finite value (both zeros are [Finite 0]). *)
Inductive number : Type :=
| NaN
| Infinity (negative : bool)
| Finite (q : Q).

(** [x <= 0] on numbers; every comparison with [NaN] is false. *)
Definition number_le_zero (x : number) : bool :=
  match x with
  | NaN => false
  | Infinity negative => negative
  | Finite q => Qle_bool q 0
  end.

(** The two built-in conversions between strings and numbers, whose rounding
    is outside this development: [Number(s)] on a string, and
    [Number.prototype.toString] on a finite number. *)
Class Host : Type := {
  Number : jsstring -> number;
  Number_toString : Q -> jsstring
}.

(** ** Data model *)

(** [{ id, name, village }]: the [farmer] of a product and the [actor] of a
    listing. *)
Record Actor : Type := mkActor {
  actor_id : jsstring;
  actor_name : jsstring;
  actor_village : jsstring
}.

(** [{ id, name }]: the Broker view's [broker] state. *)
Record BrokerRef : Type := mkBrokerRef {
  broker_id : jsstring;
  broker_name : jsstring
}.

Inductive Status : Type := LISTED | SOLD.

(** An entry of [products].  [_hashTemp] is the property the chain
    initialiser sets on the seed products; [broker] is set by an order. *)
Record Product : Type := mkProduct {
  p_id : jsstring;
  p_name : jsstring;
  p_quantityKg : number;
  p_basePricePerKg : number;
  p_farmer : Actor;
  p_status : Status;
  p_hashTemp : option jsstring;
  p_broker : option BrokerRef
}.

(** [{ id, name, quantityKg }] inside a TRANSFER block. *)
Record TransferProduct : Type := mkTransferProduct {
  tp_id : jsstring;
  tp_name : jsstring;
  tp_quantityKg : number
}.

(** The [data] of a block, by its [type]. *)
Inductive BlockData : Type :=
| GENESIS (message : jsstring)
| LISTING (product : Product) (actor : Actor)
| TRANSFER (product : TransferProduct) (from : Actor) (to : BrokerRef)
    (pricePerKg : number).

Record Block : Type := mkBlock {
  index : Z;
  timestamp : jsstring;
  prevHash : jsstring;
  data : BlockData;
  hash : jsstring
}.

Inductive Role : Type := farmer | consumer | broker | admin.

(** An entry of [seedUsers]; only the farmers have a [village]. *)
Record User : Type := mkUser {
  u_id : jsstring;
  u_username : jsstring;
  u_password : jsstring;
  u_role : Role;
  u_name : jsstring;
  u_village : option jsstring
}.

Inductive ToastType : Type := success | error.

Record Toast : Type := mkToast {
  toast_message : jsstring;
  toast_type : ToastType
}.

(** The values of [view]. *)
Inductive View : Type :=
| view_login
| view_landing
| view_role (r : Role)
| view_explorer.

(** The state of the component: [view], [products], [chain], [user] and
    [toast]. *)
Record AppState : Type := mkApp {
  view : View;
  products : list Product;
  chain : list Block;
  user : option User;
  toast : option Toast
}.

#[global] Instance Status_eq_dec : EqDecision Status.
Proof. solve_decision. Defined.

#[global] Instance Role_eq_dec : EqDecision Role.
Proof. solve_decision. Defined.

#[global] Instance ToastType_eq_dec : EqDecision ToastType.
Proof. solve_decision. Defined.

#[global] Instance View_eq_dec : EqDecision View.
Proof. solve_decision. Defined.

(** [b.data?.type]. *)
Definition data_type (d : BlockData) : jsstring :=
  match d with
  | GENESIS _ => js "GENESIS"
  | LISTING _ _ => js "LISTING"
  | TRANSFER _ _ _ _ => js "TRANSFER"
  end.

(** [b.data?.product?.id]: [None] is [undefined]. *)
Definition data_product_id (d : BlockData) : option jsstring :=
  match d with
  | GENESIS _ => None
  | LISTING p _ => Some (p_id p)
  | TRANSFER p _ _ _ => Some (tp_id p)
  end.

(** ** [JSON.stringify] on block data *)

(** The escape [\uXXXX], four lower-case hexadecimal digits. *)
Definition unicodeEscape (c : N) : jsstring :=
  js "\u" ++ padStart 4 48 (toStringRadix 16 (Z.of_N c)).

(** One code unit inside a JSON string: the two-character escapes, [\uXXXX]
    for the other control characters, and the unit itself otherwise. *)
Definition quoteUnit (c : N) : jsstring :=
  if (c =? 8)%N then js "\b"
  else if (c =? 9)%N then js "\t"
  else if (c =? 10)%N then js "\n"
  else if (c =? 12)%N then js "\f"
  else if (c =? 13)%N then js "\r"
  else if (c =? 34)%N then [92; 34]%N
  else if (c =? 92)%N then [92; 92]%N
  else if (c <? 32)%N then unicodeEscape c
  else [c].

Definition isLeadSurrogate (c : N) : bool := ((55296 <=? c) && (c <=? 56319))%N.
Definition isTrailSurrogate (c : N) : bool := ((56320 <=? c) && (c <=? 57343))%N.

(** The inside of a JSON string: a surrogate pair is kept, a lone surrogate
    is escaped. *)
Fixpoint quoteUnits (s : jsstring) : jsstring :=
  match s with
  | [] => []
  | c :: rest =>
      if isLeadSurrogate c then
        match rest with
        | d :: rest' =>
            if isTrailSurrogate d then c :: d :: quoteUnits rest'
            else unicodeEscape c ++ quoteUnits rest
        | [] => unicodeEscape c
        end
      else if isTrailSurrogate c then unicodeEscape c ++ quoteUnits rest
      else quoteUnit c ++ quoteUnits rest
  end.

Definition QuoteJSONString (s : jsstring) : jsstring :=
  [34%N] ++ quoteUnits s ++ [34%N].

Definition json_property (key : string) (value : jsstring) : jsstring :=
  QuoteJSONString (js key) ++ js ":" ++ value.

Fixpoint json_join (props : list jsstring) : jsstring :=
  match props with
  | [] => []
  | [x] => x
  | x :: rest => x ++ js "," ++ json_join rest
  end.

Definition json_object (props : list jsstring) : jsstring :=
  js "{" ++ json_join props ++ js "}".

(** A property whose value may be [undefined] is left out. *)
Definition json_optional (key : string) (value : option jsstring) : list jsstring :=
  match value with
  | Some v => [json_property key v]
  | None => []
  end.

(** A number: [null] unless it is finite. *)
Definition json_number `{Host} (x : number) : jsstring :=
  match x with
  | Finite q => Number_toString q
  | _ => js "null"
  end.

Definition statusString (s : Status) : jsstring :=
  match s with LISTED => js "LISTED" | SOLD => js "SOLD" end.

Definition json_Actor (a : Actor) : jsstring :=
  json_object [
    json_property "id" (QuoteJSONString (actor_id a));
    json_property "name" (QuoteJSONString (actor_name a));
    json_property "village" (QuoteJSONString (actor_village a)) ].

Definition json_BrokerRef (b : BrokerRef) : jsstring :=
  json_object [
    json_property "id" (QuoteJSONString (broker_id b));
    json_property "name" (QuoteJSONString (broker_name b)) ].

(** The properties of a product in the order they were created: the six of
    the literal, then [_hashTemp], then [broker]. *)
Definition json_Product `{Host} (p : Product) : jsstring :=
  json_object ([
    json_property "id" (QuoteJSONString (p_id p));
    json_property "name" (QuoteJSONString (p_name p));
    json_property "quantityKg" (json_number (p_quantityKg p));
    json_property "basePricePerKg" (json_number (p_basePricePerKg p));
    json_property "farmer" (json_Actor (p_farmer p));
    json_property "status" (QuoteJSONString (statusString (p_status p))) ]
    ++ json_optional "_hashTemp" (QuoteJSONString <$> p_hashTemp p)
    ++ json_optional "broker" (json_BrokerRef <$> p_broker p)).

Definition json_TransferProduct `{Host} (p : TransferProduct) : jsstring :=
  json_object [
    json_property "id" (QuoteJSONString (tp_id p));
    json_property "name" (QuoteJSONString (tp_name p));
    json_property "quantityKg" (json_number (tp_quantityKg p)) ].

(** [JSON.stringify(data)] for the three shapes of block data. *)
Definition JSON_stringify `{Host} (d : BlockData) : jsstring :=
  match d with
  | GENESIS message =>
      json_object [
        json_property "type" (QuoteJSONString (js "GENESIS"));
        json_property "message" (QuoteJSONString message) ]
  | LISTING product actor =>
      json_object [
        json_property "type" (QuoteJSONString (js "LISTING"));
        json_property "product" (json_Product product);
        json_property "actor" (json_Actor actor) ]
  | TRANSFER product from to pricePerKg =>
      json_object [
        json_property "type" (QuoteJSONString (js "TRANSFER"));
        json_property "product" (json_TransferProduct product);
        json_property "from" (json_Actor from);
        json_property "to" (json_BrokerRef to);
        json_property "pricePerKg" (json_number pricePerKg) ]
  end.

(** ** Blocks *)

(** What one call of [makeBlock] reads from outside: [nowISO()] for the
    hashed string, [Math.random().toString(16)] inside [pseudoHash], and
    [nowISO()] again for the [timestamp] property. *)
Record Entropy : Type := mkEntropy {
  hashInstant : jsstring;
  randomDraw : jsstring;
  stampInstant : jsstring
}.

(** The hash expression of [makeBlock],
    [pseudoHash(prevHash + body + nowISO())], with the clock reading and the
    random draw as arguments. *)
Definition computeHash `{Host} (prevHash : jsstring) (payload : BlockData)
    (instant rnd : jsstring) : jsstring :=
  pseudoHash (prevHash ++ JSON_stringify payload ++ instant) rnd.

Definition makeBlock `{Host} (prevHash : jsstring) (data : BlockData) (e : Entropy) : Block :=
  let body := JSON_stringify data in
  let hash := pseudoHash (prevHash ++ body ++ hashInstant e) (randomDraw e) in
  {| index := 0;
     timestamp := stampInstant e;
     prevHash := prevHash;
     data := data;
     hash := hash |}.

(** [b.index = i]. *)
Definition set_index (b : Block) (i : Z) : Block :=
  {| index := i; timestamp := timestamp b; prevHash := prevHash b;
     data := data b; hash := hash b |}.

(** The genesis literal, written twice in the source (the [chain] initialiser
    and [resetBlockchain]); [now] is [nowISO()] and [rnd] the random draw of
    [pseudoHash("GENESIS")]. *)
Definition genesisBlock (now rnd : jsstring) : Block :=
  {| index := 0;
     timestamp := now;
     prevHash := js "0xGENESIS";
     data := GENESIS (js "Agronova Chain Initialized");
     hash := pseudoHash (js "GENESIS") rnd |}.

(** ** Demo seeds *)

Definition seedProducts : list Product := [
  {| p_id := js "AGR-1001";
     p_name := js "Organic Tomatoes";
     p_quantityKg := Finite (120 # 1);
     p_basePricePerKg := Finite (28 # 1);
     p_farmer := mkActor (js "F-001") (js "Ravi Kumar") (js "Narsinghpur");
     p_status := LISTED;
     p_hashTemp := None;
     p_broker := None |};
  {| p_id := js "AGR-1002";
     p_name := js "Basmati Rice";
     p_quantityKg := Finite (500 # 1);
     p_basePricePerKg := Finite (62 # 1);
     p_farmer := mkActor (js "F-002") (js "Sita Devi") (js "Rewa");
     p_status := LISTED;
     p_hashTemp := None;
     p_broker := None |} ].

Definition seedUsers : list User := [
  mkUser (js "F-001") (js "farmer1") (js "password1") farmer (js "Ravi Kumar") (Some (js "Narsinghpur"));
  mkUser (js "F-002") (js "farmer2") (js "password2") farmer (js "Sita Devi") (Some (js "Rewa"));
  mkUser (js "C-001") (js "consumer1") (js "password1") consumer (js "Anil Sharma") None;
  mkUser (js "B-001") (js "broker1") (js "password1") broker (js "GreenSupply Pvt Ltd") None;
  mkUser (js "A-001") (js "admin") (js "password") admin (js "Admin") None ].

(** ** The initial state *)

(** [x || fallback] where [x] is a string or [undefined]. *)
Definition or_else (x : option jsstring) (fallback : jsstring) : jsstring :=
  match x with
  | Some s => if truthy s then s else fallback
  | None => fallback
  end.

(** [p._hashTemp = h]. *)
Definition set_hashTemp (p : Product) (h : jsstring) : Product :=
  {| p_id := p_id p; p_name := p_name p; p_quantityKg := p_quantityKg p;
     p_basePricePerKg := p_basePricePerKg p; p_farmer := p_farmer p;
     p_status := p_status p; p_hashTemp := Some h; p_broker := p_broker p |}.

(** The callback of [seedProducts.map((p, i, arr) => ...)], run over the
    elements from position [i] on.  [before] is [arr[i - 1]] as the previous
    call left it.  Each element is paired with its block.  The assignment
    [arr[i]._hashTemp = b.hash] changes the one object that is both the array
    element and [b.data.product], after [makeBlock] has serialised it: the
    hash is computed from the product without [_hashTemp], and the block and
    the array both end up holding the product with it. *)
Fixpoint seedBlocks `{Host} (genesisHash : jsstring) (es : nat -> Entropy)
    (i : nat) (before : option Product) (arr : list Product) : list (Block * Product) :=
  match arr with
  | [] => []
  | p :: rest =>
      let prev :=
        match i with
        | O => genesisHash
        | S _ => or_else (before ≫= p_hashTemp) genesisHash
        end in
      let b := set_index (makeBlock prev (LISTING p (p_farmer p)) (es i)) (Z.of_nat i + 1) in
      let p' := set_hashTemp p (hash b) in
      let b' := {| index := index b; timestamp := timestamp b; prevHash := prevHash b;
                   data := LISTING p' (p_farmer p); hash := hash b |} in
      (b', p') :: seedBlocks genesisHash es (S i) (Some p') rest
  end.

(** The state after the first render: [view] is ["login"], [products] is the
    array [seedProducts] (whose elements the chain initialiser has changed),
    [chain] is the genesis block followed by the seed blocks.  [now] and
    [rnd] are read by the genesis literal, [es i] by the block of seed [i]. *)
Definition initialState `{Host} (now rnd : jsstring) (es : nat -> Entropy) : AppState :=
  let genesis := genesisBlock now rnd in
  let seeded := seedBlocks (hash genesis) es 0 None seedProducts in
  {| view := view_login;
     products := snd <$> seeded;
     chain := genesis :: (fst <$> seeded);
     user := None;
     toast := None |}.

(** ** Shared helpers *)

(** The updater of [appendBlock]: [None] is the TypeError of reading
    [last.hash] when the chain is empty.  [last.index + 1] is exact: an index
    is below the length of an array, far below [2^53]. *)
Definition appendBlock `{Host} (data : BlockData) (e : Entropy) (prev : list Block)
    : option (list Block) :=
  match list.last prev with
  | None => None
  | Some last =>
      let block := makeBlock (hash last) data e in
      Some (prev ++ [set_index block (index last + 1)])
  end.

(** [{ ...farmer, id }]. *)
Definition with_actor_id (a : Actor) (id : jsstring) : Actor :=
  {| actor_id := id; actor_name := actor_name a; actor_village := actor_village a |}.

(** The argument of [listProduct]; quantity and price are the form's texts. *)
Record Listing : Type := mkListing {
  l_id : jsstring;
  l_name : jsstring;
  l_quantityKg : jsstring;
  l_basePricePerKg : jsstring;
  l_farmer : Actor
}.

(** [listProduct]: [None] is a TypeError ([user] is [null], or the chain is
    empty). *)
Definition listProduct `{Host} (a : Listing) (e : Entropy) (st : AppState) : option AppState :=
  match user st with
  | None => None
  | Some u =>
      let newProd :=
        {| p_id := l_id a;
           p_name := l_name a;
           p_quantityKg := Number (l_quantityKg a);
           p_basePricePerKg := Number (l_basePricePerKg a);
           p_farmer := with_actor_id (l_farmer a) (u_id u);
           p_status := LISTED;
           p_hashTemp := None;
           p_broker := None |} in
      let updatedProducts := newProd :: products st in
      match appendBlock (LISTING newProd (with_actor_id (l_farmer a) (u_id u))) e (chain st) with
      | None => None
      | Some chain' =>
          Some {| view := view st;
                  products := updatedProducts;
                  chain := chain';
                  user := user st;
                  toast := Some (mkToast (js "Product listed successfully!") success) |}
      end
  end.

(** [{ ...p, status: "SOLD", broker }]. *)
Definition sold_to (p : Product) (b : BrokerRef) : Product :=
  {| p_id := p_id p; p_name := p_name p; p_quantityKg := p_quantityKg p;
     p_basePricePerKg := p_basePricePerKg p; p_farmer := p_farmer p;
     p_status := SOLD; p_hashTemp := p_hashTemp p; p_broker := Some b |}.

(** [orderProduct]; [confirm] is the answer to [window.confirm].  [None] is
    the TypeError of [appendBlock] on an empty chain. *)
Definition orderProduct `{Host} (productId : jsstring) (b : BrokerRef) (confirm : bool)
    (e : Entropy) (st : AppState) : option AppState :=
  if negb confirm then Some st
  else
    let updatedProducts :=
      map (fun p => if bool_decide (p_id p = productId) then sold_to p b else p)
          (products st) in
    match List.find (fun p => bool_decide (p_id p = productId)) (products st) with
    | None =>
        Some {| view := view st; products := updatedProducts; chain := chain st;
                user := user st; toast := toast st |}
    | Some prod =>
        match appendBlock
                (TRANSFER {| tp_id := p_id prod; tp_name := p_name prod;
                             tp_quantityKg := p_quantityKg prod |}
                          (p_farmer prod) b (p_basePricePerKg prod))
                e (chain st) with
        | None => None
        | Some chain' =>
            Some {| view := view st;
                    products := updatedProducts;
                    chain := chain';
                    user := user st;
                    toast := Some (mkToast (js "Order placed successfully!") success) |}
        end
    end.

(** [setToast(null)], run by the timer each toast starts. *)
Definition clearToast (st : AppState) : AppState :=
  {| view := view st; products := products st; chain := chain st;
     user := user st; toast := None |}.

(** ** The Farmer view *)

(** The Farmer view's [form]; every field is the text of an input. *)
Record Form : Type := mkForm {
  f_id : jsstring;
  f_name : jsstring;
  f_quantityKg : jsstring;
  f_basePricePerKg : jsstring;
  f_farmerName : jsstring;
  f_village : jsstring
}.

(** The Farmer view's [errors]: a message per field, or none. *)
Record Errors : Type := mkErrors {
  err_name : option jsstring;
  err_quantityKg : option jsstring;
  err_basePricePerKg : option jsstring
}.

Definition noErrors : Errors := mkErrors None None None.

(** The Farmer view's own state. *)
Record FarmerState : Type := mkFarmerState {
  form : Form;
  errors : Errors
}.

(** [`AGR-${n}`], where [n] is the value of
    [Math.floor(1000 + Math.random() * 9000)]: an integer from 1000 to 9999. *)
Definition formId (n : Z) : jsstring := js "AGR-" ++ toStringRadix 10 n.

(** The form as the view creates it and as a successful upload resets it. *)
Definition freshForm (u : User) (n : Z) : Form :=
  {| f_id := formId n;
     f_name := [];
     f_quantityKg := [];
     f_basePricePerKg := [];
     f_farmerName := u_name u;
     f_village := or_else (u_village u) [] |}.

(** [validateForm]: the new [errors], and whether they are empty.  In
    [form.quantityKg <= 0] the text is converted as [Number] converts it. *)
Definition validateForm `{Host} (form : Form) : Errors * bool :=
  let newErrors :=
    {| err_name :=
         if negb (truthy (f_name form)) then Some (js "Product name is required") else None;
       err_quantityKg :=
         if negb (truthy (f_quantityKg form)) || number_le_zero (Number (f_quantityKg form))
         then Some (js "Valid quantity is required") else None;
       err_basePricePerKg :=
         if negb (truthy (f_basePricePerKg form)) || number_le_zero (Number (f_basePricePerKg form))
         then Some (js "Valid price is required") else None |} in
  (newErrors,
   match err_name newErrors, err_quantityKg newErrors, err_basePricePerKg newErrors with
   | None, None, None => true
   | _, _, _ => false
   end).

(** The [disabled] attribute of the upload button. *)
Definition uploadDisabled (form : Form) : bool :=
  negb (truthy (f_name form)) || negb (truthy (f_quantityKg form))
  || negb (truthy (f_basePricePerKg form)).

(** The click handler of "Upload to Blockchain".  [n] is the draw for the
    next form's id.  A click on the disabled button does nothing; [None] is
    a TypeError. *)
Definition farmerUpload `{Host} (n : Z) (e : Entropy) (st : AppState) (fs : FarmerState)
    : option (AppState * FarmerState) :=
  if uploadDisabled (form fs) then Some (st, fs)
  else
    let '(newErrors, ok) := validateForm (form fs) in
    if negb ok then Some (st, {| form := form fs; errors := newErrors |})
    else
      match user st with
      | None => None
      | Some u =>
          match listProduct
                  {| l_id := f_id (form fs);
                     l_name := f_name (form fs);
                     l_quantityKg := f_quantityKg (form fs);
                     l_basePricePerKg := f_basePricePerKg (form fs);
                     l_farmer :=
                       {| actor_id := u_id u;
                          actor_name := f_farmerName (form fs);
                          actor_village := or_else (Some (f_village (form fs))) [8212%N] |} |}
                  e st with
          | None => None
          | Some st' => Some (st', {| form := freshForm u n; errors := noErrors |})
          end
      end.

(** ** The Broker view *)

(** [available]: the products the view shows an Order button for. *)
Definition available (ps : list Product) : list Product :=
  filter (fun p => p_status p = LISTED) ps.

(** ** The Consumer view *)

(** [{ listing, transfer }]; [None] is [undefined]. *)
Record TraceRecord : Type := mkTraceRecord {
  listing : option Block;
  transfer : option Block
}.

(** The view's [record] for the text [query]; [None] is [null]. *)
Definition record (query : jsstring) (chain : list Block) : option TraceRecord :=
  if negb (truthy query) then None
  else
    let related := filter (fun b => data_product_id (data b) = Some query) chain in
    match related with
    | [] => None
    | _ :: _ =>
        Some {| listing := List.find (fun b => bool_decide (data_type (data b) = js "LISTING")) related;
                transfer := List.find (fun b => bool_decide (data_type (data b) = js "TRANSFER")) related |}
    end.

(** ** The Admin view *)

(** [resetBlockchain]; [confirm] is the answer to [window.confirm]. *)
Definition resetBlockchain (confirm : bool) (now rnd : jsstring) (st : AppState) : AppState :=
  if negb confirm then st
  else
    let genesis := genesisBlock now rnd in
    {| view := view st;
       products := [];
       chain := [genesis];
       user := user st;
       toast := Some (mkToast (js "Blockchain reset successfully!") success) |}.

(** ** Login, logout and navigation *)

Definition handleLogin (username password : jsstring) (role : Role) (st : AppState) : AppState :=
  match List.find (fun u => bool_decide (u_username u = username)
                            && bool_decide (u_password u = password)
                            && bool_decide (u_role u = role)) seedUsers with
  | Some foundUser =>
      {| view := view_role (u_role foundUser);
         products := products st;
         chain := chain st;
         user := Some foundUser;
         toast := Some (mkToast (js "Logged in as " ++ u_name foundUser ++ js "!") success) |}
  | None =>
      {| view := view st; products := products st; chain := chain st;
         user := user st; toast := Some (mkToast (js "Login failed!") error) |}
  end.

Definition logout (st : AppState) : AppState :=
  {| view := view_login; products := products st; chain := chain st;
     user := None; toast := Some (mkToast (js "Logged out successfully!") success) |}.

Definition setView (v : View) (st : AppState) : AppState :=
  {| view := v; products := products st; chain := chain st;
     user := user st; toast := toast st |}.

(** [user?.role === r]. *)
Definition has_role (r : Role) (st : AppState) : Prop :=
  exists u, user st = Some u /\ u_role u = r.

(** ** Events *)

(** What the user (or a timer) can make the rendered component do in a
    state.  Each view is rendered for its own value of [view] and shows its
    controls only to a user of its role. *)
Inductive step `{Host} : AppState -> AppState -> Prop :=
| step_login st username password role :
    view st = view_login -> truthy username = true -> truthy password = true ->
    step st (handleLogin username password role st)
| step_logout st :
    view st <> view_login ->
    step st (logout st)
| step_navigate st v :
    view st <> view_login ->
    v = view_landing \/ v = view_explorer \/ (exists r, v = view_role r /\ has_role r st) ->
    step st (setView v st)
| step_upload st fs n n' e st' fs' :
    view st = view_role farmer -> has_role farmer st ->
    (1000 <= n <= 9999)%Z -> f_id (form fs) = formId n ->
    farmerUpload n' e st fs = Some (st', fs') ->
    step st st'
| step_order st p b confirm e st' :
    view st = view_role broker -> has_role broker st ->
    p ∈ available (products st) ->
    orderProduct (p_id p) b confirm e st = Some st' ->
    step st st'
| step_reset st confirm now rnd :
    view st = view_role admin -> has_role admin st ->
    step st (resetBlockchain confirm now rnd st)
| step_toast st :
    step st (clearToast st).

(** The states of the running component. *)
Inductive reachable `{Host} : AppState -> Prop :=
| reachable_init now rnd es : reachable (initialState now rnd es)
| reachable_step st st' : reachable st -> step st st' -> reachable st'.

(** The chains that calls of the code produce: the seeded chain, any chain
    after [appendBlock] with any data, and the chain after a reset. *)
Inductive chain_reachable `{Host} : list Block -> Prop :=
| chain_init now rnd es : chain_reachable (chain (initialState now rnd es))
| chain_append c data e c' :
    chain_reachable c -> appendBlock data e c = Some c' -> chain_reachable c'
| chain_reset c now rnd :
    chain_reachable c -> chain_reachable [genesisBlock now rnd].

(** What the claims about reachable chains say of a chain: block 0 has the
    sentinel as [prevHash] and index 0, and each later block names the hash
    of the block before it and carries the next index. *)
Definition chain_linked (c : list Block) : Prop :=
  (exists g, c !! 0%nat = Some g /\ prevHash g = js "0xGENESIS" /\ index g = 0%Z)
  /\ forall (i : nat) (b b' : Block),
       c !! i = Some b -> c !! S i = Some b' ->
       prevHash b' = hash b /\ index b' = (index b + 1)%Z.

(** ** Verification of a chain *)

(** Modelled from the spec: [verify()], which the source does not have.  It
    scans the full sequence and confirms, block by block, that [prevHash] is
    the hash of the predecessor (the sentinel for the first block) and that
    [hash] matches recomputation, which for this code is the hash expression
    of [makeBlock] on the block's own [prevHash], [data] and [timestamp];
    [draws i] is what [Math.random().toString(16)] yields in the
    recomputation for position [i].  The result is [None] for true and
    [Some i] for false at the first offending position [i]. *)
Fixpoint verifyFrom `{Host} (expected : jsstring) (position : nat)
    (draws : nat -> jsstring) (c : list Block) : option nat :=
  match c with
  | [] => None
  | b :: rest =>
      if bool_decide (prevHash b = expected)
         && bool_decide (hash b = computeHash (prevHash b) (data b) (timestamp b) (draws position))
      then verifyFrom (hash b) (S position) draws rest
      else Some position
  end.

Definition verify `{Host} (draws : nat -> jsstring) (c : list Block) : option nat :=
  verifyFrom (js "0xGENESIS") 0 draws c.

(** Modelled from the spec: the linkage half of [verify()] alone, without
    the recomputation of hashes. *)
Fixpoint verifyLinksFrom (expected : jsstring) (position : nat) (c : list Block) : option nat :=
  match c with
  | [] => None
  | b :: rest =>
      if bool_decide (prevHash b = expected)
      then verifyLinksFrom (hash b) (S position) rest
      else Some position
  end.

Definition verifyLinks (c : list Block) : option nat :=
  verifyLinksFrom (js "0xGENESIS") 0 c.

(** Whether the state shows an error to the user: the component's only
    report of a failed action is a toast of type ["error"]. *)
Definition error_surfaced (st : AppState) : bool :=
  match toast st with
  | Some t => bool_decide (toast_type t = error)
  | None => false
  end.

(** How one product of [products] may differ after an event: it keeps its
    id, and its status is as before or has gone from LISTED to SOLD. *)
Definition status_kept (p p' : Product) : Prop :=
  p_id p' = p_id p
  /\ (p_status p' = p_status p \/ (p_status p = LISTED /\ p_status p' = SOLD)).

(** ** A host for concrete runs *)

Definition digitValue (c : N) : option Z :=
  if ((48 <=? c) && (c <=? 57))%N then Some (Z.of_N c - 48)%Z else None.

Fixpoint parseDigits (acc : Z) (s : jsstring) : option Z :=
  match s with
  | [] => Some acc
  | c :: rest =>
      match digitValue c with
      | Some d => parseDigits (acc * 10 + d)%Z rest
      | None => None
      end
  end.

(** [Number(s)] on the empty text and on decimal integer literals with an
    optional sign, where it is exact below [2^53]; every other text is sent
    to [NaN], and no run below uses one. *)
Definition decimalNumber (s : jsstring) : number :=
  match s with
  | [] => Finite 0
  | c :: rest =>
      if ((c =? 45)%N || (c =? 43)%N) && truthy rest then
        match parseDigits 0 rest with
        | Some v => Finite (inject_Z (if (c =? 45)%N then - v else v))
        | None => NaN
        end
      else
        match parseDigits 0 s with
        | Some v => Finite (inject_Z v)
        | None => NaN
        end
  end.

(** [Number.prototype.toString] on integers (below [10^21] in magnitude it
    prints the decimal digits); the integer part stands in for every other
    value, and no run below prints one. *)
Definition decimalToString (q : Q) : jsstring :=
  let z := (Qnum q / Zpos (Qden q))%Z in
  if (z <? 0)%Z then js "-" ++ toStringRadix 10 (- z) else toStringRadix 10 z.

Definition decimalHost : Host :=
  {| Number := decimalNumber; Number_toString := decimalToString |}.

(** A run: every clock reading is the same instant and every random draw
    the same digits. *)
Definition demoInstant : jsstring := js "2025-01-01T00:00:00.000Z".
Definition demoDraw : jsstring := js "0.8f3a91c2e4b7d".
Definition demoEntropy : Entropy := mkEntropy demoInstant demoDraw demoInstant.

Definition demoInitial : AppState :=
  @initialState decimalHost demoInstant demoDraw (fun _ => demoEntropy).

(** The seeded chain of the run with one more block appended. *)
Definition demoAppended : list Block :=
  default [] (@appendBlock decimalHost (GENESIS (js "again")) demoEntropy (chain demoInitial)).

Definition demoBroker : BrokerRef := mkBrokerRef (js "B-001") (js "GreenSupply Pvt Ltd").

(** farmer1 logged in on the seeded state. *)
Definition demoFarmerState : AppState :=
  handleLogin (js "farmer1") (js "password1") farmer demoInitial.

(** broker1 logged in on the seeded state. *)
Definition demoBrokerState : AppState :=
  handleLogin (js "broker1") (js "password1") broker demoInitial.

(** A filled form whose drawn id is AGR-1001. *)
Definition demoForm (quantity price : string) : Form :=
  {| f_id := formId 1001;
     f_name := js "Okra";
     f_quantityKg := js quantity;
     f_basePricePerKg := js price;
     f_farmerName := js "Ravi Kumar";
     f_village := js "Narsinghpur" |}.

(** The seeded state after broker1 has ordered AGR-1001. *)
Definition demoSoldState : AppState :=
  default demoBrokerState
    (@orderProduct decimalHost (js "AGR-1001") demoBroker true demoEntropy demoBrokerState).

(** The seeded state after farmer1 has uploaded a form whose drawn id is
    AGR-1001. *)
Definition demoDuplicateState : AppState :=
  match @farmerUpload decimalHost 1002 demoEntropy demoFarmerState
          (mkFarmerState (demoForm "5" "40") noErrors) with
  | Some (st', _) => st'
  | None => demoFarmerState
  end.

Definition demoListing (quantity price : string) : Listing :=
  {| l_id := js "AGR-2000";
     l_name := js "Okra";
     l_quantityKg := js quantity;
     l_basePricePerKg := js price;
     l_farmer := mkActor (js "F-999") (js "Somebody Else") (js "Elsewhere") |}.

(** The seed product AGR-1001 as the seeded state holds it. *)
Definition demoTomatoes : Product :=
  set_hashTemp
    (mkProduct (js "AGR-1001") (js "Organic Tomatoes") (Finite (120 # 1)) (Finite (28 # 1))
       (mkActor (js "F-001") (js "Ravi Kumar") (js "Narsinghpur")) LISTED None None)
    (js "EA7603918F3A91C2").

(** Block [k] of the chain after broker1's order. *)
Definition demoBlock (k : nat) : Block :=
  default (genesisBlock [] []) (chain demoSoldState !! k).

(** The run goes on: broker1 logs out, farmer1 logs in and uploads a form
    whose drawn id is AGR-1001, then logs out, and broker1 logs in again. *)
Definition demoSoldFarmerState : AppState :=
  handleLogin (js "farmer1") (js "password1") farmer (logout demoSoldState).

Definition demoSoldDuplicateState : AppState :=
  match @farmerUpload decimalHost 1002 demoEntropy demoSoldFarmerState
          (mkFarmerState (demoForm "5" "40") noErrors) with
  | Some (st', _) => st'
  | None => demoSoldFarmerState
  end.

Definition demoSoldDuplicateBrokerState : AppState :=
  handleLogin (js "broker1") (js "password1") broker (logout demoSoldDuplicateState).

(** The Okra that upload listed. *)
Definition demoOkra : Product :=
  mkProduct (js "AGR-1001") (js "Okra") (Finite (5 # 1)) (Finite (40 # 1))
    (mkActor (js "F-001") (js "Ravi Kumar") (js "Narsinghpur")) LISTED None None.

Definition demoOtherBroker : BrokerRef := mkBrokerRef (js "B-001") (js "Another Name").

(** ** Further parts of the component *)

(** [arr.join(sep)] on an array of strings. *)
Fixpoint join (sep : jsstring) (l : list jsstring) : jsstring :=
  match l with
  | [] => []
  | [x] => x
  | x :: rest => x ++ sep ++ join sep rest
  end.

(** [Boolean(x)] for an argument of [classNames]: a string, or the [false]
    or [undefined] that [cond && "..."] leaves ([None]). *)
Definition truthyArg (x : option jsstring) : option jsstring :=
  match x with
  | Some s => if truthy s then Some s else None
  | None => None
  end.

(** [classNames(...c)]: [c.filter(Boolean).join(" ")]. *)
Definition classNames (c : list (option jsstring)) : jsstring :=
  join (js " ") (omap truthyArg c).

(** [{ total, sold, listed }]. *)
Record Stats : Type := mkStats {
  stats_total : Z;
  stats_sold : Z;
  stats_listed : Z
}.

(** The memo [stats]. *)
Definition stats (products : list Product) : Stats :=
  let total := Z.of_nat (length products) in
  let sold :=
    Z.of_nat (length (List.filter (fun p => bool_decide (p_status p = SOLD)) products)) in
  let listed := (total - sold)%Z in
  {| stats_total := total; stats_sold := sold; stats_listed := listed |}.

(** The rows of "Your Recent Listings" for the logged-in user:
    [products.filter((p) => p.farmer?.id === user.id)]. *)
Definition recentListings (u : User) (products : list Product) : list Product :=
  List.filter (fun p => bool_decide (actor_id (p_farmer p) = u_id u)) products.

(** [s.startsWith(prefix)]. *)
Definition startsWith (s prefix : jsstring) : bool :=
  bool_decide (take (length prefix) s = prefix).

(** [b.data?.actor?.id] and [b.data?.to?.id]: [None] is [undefined]. *)
Definition data_actor_id (d : BlockData) : option jsstring :=
  match d with
  | LISTING _ actor => Some (actor_id actor)
  | _ => None
  end.

Definition data_to_id (d : BlockData) : option jsstring :=
  match d with
  | TRANSFER _ _ to _ => Some (broker_id to)
  | _ => None
  end.

(** The callback of the Admin view's filter.  In
    [b.data?.actor?.id.startsWith("F-")] a missing [actor] ends the whole
    chain with [undefined], which the filter reads as false. *)
Definition filterKeeps (filterRole : jsstring) (b : Block) : bool :=
  if bool_decide (data_type (data b) = js "GENESIS") then true
  else if bool_decide (filterRole = js "farmer") then
    match data_actor_id (data b) with
    | Some id => startsWith id (js "F-")
    | None => false
    end
  else if bool_decide (filterRole = js "broker") then
    match data_to_id (data b) with
    | Some id => startsWith id (js "B-")
    | None => false
    end
  else false.

(** The Admin view's memo [filteredChain]. *)
Definition filteredChain (filterRole : jsstring) (chain : list Block) : list Block :=
  if bool_decide (filterRole = js "all") then chain
  else List.filter (filterKeeps filterRole) chain.

(** The blocks of one [type]. *)
Definition blocksOfType (type : string) (chain : list Block) : list Block :=
  List.filter (fun b => bool_decide (data_type (data b) = js type)) chain.

(** A control of the navigation bar, by its click handler: [setView(r)],
    or the handler of the Logout button. *)
Inductive NavButton : Type :=
| nav_view (v : View)
| nav_logout.

(** What a click on the control runs. *)
Definition navClick (b : NavButton) (st : AppState) : AppState :=
  match b with
  | nav_view v => setView v st
  | nav_logout => logout st
  end.

(** The logo of the bar, which is not a button but runs
    [setView("landing")] when clicked. *)
Definition navLogo : NavButton := nav_view view_landing.

(** The buttons of the navigation bar, in order.  [Nav] renders nothing on
    the login view; elsewhere it shows
    [["landing", user?.role, "explorer"].filter(Boolean)], then the extra
    Admin button an admin gets, then Logout. *)
Definition navButtons (view : View) (user : option User) : list NavButton :=
  if bool_decide (view = view_login) then []
  else
    [nav_view view_landing]
    ++ match user with Some u => [nav_view (view_role (u_role u))] | None => [] end
    ++ [nav_view view_explorer]
    ++ match user with
       | Some u => if bool_decide (u_role u = admin) then [nav_view (view_role admin)] else []
       | None => []
       end
    ++ [nav_logout].

(** The views the Landing page's buttons lead to:
    [["farmer", "consumer", "broker", "explorer"]] filtered by
    [r === user?.role || r === "explorer"], then the Admin Dashboard button
    an admin gets. *)
Definition landingButtons (user : option User) : list View :=
  List.filter
    (fun v => match v, user with
              | view_role r, Some u => bool_decide (r = u_role u)
              | view_explorer, _ => true
              | _, _ => false
              end)
    [view_role farmer; view_role consumer; view_role broker; view_explorer]
  ++ match user with
     | Some u => if bool_decide (u_role u = admin) then [view_role admin] else []
     | None => []
     end.

(** ** Predicates of the proofs *)

(** A hexadecimal digit as [toString(16)] prints it, and in upper case. *)
Definition isLowerHex (c : N) : bool :=
  ((48 <=? c) && (c <=? 57) || (97 <=? c) && (c <=? 102))%N.

Definition isUpperHex (c : N) : bool :=
  ((48 <=? c) && (c <=? 57) || (65 <=? c) && (c <=? 70))%N.

(** The value of a digit as [toString(radix)] prints it, and of a sequence
    of digits, most significant first. *)
Definition unitDigit (c : N) : Z :=
  if (c <? 58)%N then (Z.of_N c - 48)%Z else (Z.of_N c - 87)%Z.

Definition unitsValue (radix : Z) (s : jsstring) : Z :=
  fold_left (fun acc c => acc * radix + unitDigit c)%Z s 0%Z.

(** The first part of a hash: the checksum of the input, printed. *)
Definition checksumPart (input : jsstring) : jsstring :=
  toUpperCase (padStart 8 48 (toStringRadix 16 (pseudoHash_h input))).

(** The second part: what is kept of the random draw. *)
Definition randomPart (rnd : jsstring) : jsstring :=
  toUpperCase (slice 2 10 rnd).

(** A chain that starts from [expected] and index [i]: every block names the
    hash before it and carries the next index. *)
Fixpoint linked_from (expected : jsstring) (i : Z) (c : list Block) : Prop :=
  match c with
  | [] => True
  | b :: rest => prevHash b = expected /\ index b = i /\ linked_from (hash b) (i + 1) rest
  end.

(** A draw whose kept digits differ from those of [rnd]. *)
Definition otherDraw (rnd : jsstring) : jsstring :=
  match randomPart rnd with
  | [] => js "0.1"
  | _ :: _ => js "0"
  end.

(** The block is a LISTING, or a TRANSFER, of the product id. *)
Definition is_listing_of (id : jsstring) (b : Block) : Prop :=
  exists p a, data b = LISTING p a /\ p_id p = id.

Definition is_transfer_of (id : jsstring) (b : Block) : Prop :=
  exists p from to price, data b = TRANSFER p from to price /\ tp_id p = id.

(** What ties [products] to [chain] in a running component: the chain is
    linked from the genesis block; every product has a non-empty id and a
    LISTING block; every TRANSFER block comes after a LISTING block of the
    same product id; and the product ids in the chain are non-empty. *)
Record ledger_inv (st : AppState) : Prop := mkLedgerInv {
  inv_nonempty : chain st <> [];
  inv_linked : linked_from (js "0xGENESIS") 0 (chain st);
  inv_products : forall p, p ∈ products st ->
    truthy (p_id p) = true /\ exists b, b ∈ chain st /\ is_listing_of (p_id p) b;
  inv_transfers : forall (j : nat) t id,
    chain st !! j = Some t -> is_transfer_of id t ->
    exists (i : nat) l, (i < j)%nat /\ chain st !! i = Some l /\ is_listing_of id l;
  inv_ids : forall b id,
    b ∈ chain st -> data_product_id (data b) = Some id -> truthy id = true
}.

(** The steps of the demo run: broker1 logs in on the seeded state, then
    orders AGR-1001. *)
Ltac demo_broker_login :=
  apply (@step_login decimalHost demoInitial); reflexivity.

Ltac demo_broker_order :=
  apply (@step_order decimalHost demoBrokerState
           (set_hashTemp (mkProduct (js "AGR-1001") (js "Organic Tomatoes")
              (Finite (120 # 1)) (Finite (28 # 1))
              (mkActor (js "F-001") (js "Ravi Kumar") (js "Narsinghpur")) LISTED None None)
              (js "EA7603918F3A91C2"))
           demoBroker true demoEntropy demoSoldState);
  [ reflexivity
  | eexists; split; reflexivity
  | apply list_elem_of_In; vm_compute; left; reflexivity
  | vm_compute; reflexivity ].

(** Two literals of the source that differ. *)
Ltac js_discriminate :=
  let E := fresh "E" in intros E; vm_compute in E; discriminate E.

(** * Properties *)

(** ** Strings and hashes *)

Lemma length_toUpperCase s : length (toUpperCase s) = length s.
Proof. unfold toUpperCase. apply length_map. Qed.

Lemma length_padStart n c s : length (padStart n c s) = Nat.max n (length s).
Proof. unfold padStart. rewrite length_app, length_replicate. lia. Qed.

Lemma pseudoHash_h_step input c :
  pseudoHash_h (input ++ [c]) = ((pseudoHash_h input * 31 + Z.of_N c) mod 2 ^ 32)%Z.
Proof. unfold pseudoHash_h. now rewrite fold_left_app. Qed.

(** The checksum is an unsigned 32-bit integer. *)
Lemma pseudoHash_h_range input : (0 <= pseudoHash_h input < 2 ^ 32)%Z.
Proof.
  induction input as [|c input _] using rev_ind.
  - cbn. lia.
  - rewrite pseudoHash_h_step. apply Z.mod_pos_bound. lia.
Qed.

(** A number below [16^k] has at most [k] hexadecimal digits. *)
Lemma length_digitsRadix_16 fuel : forall (k : nat) (n : Z),
  (1 <= k)%nat -> (0 <= n < 16 ^ Z.of_nat k)%Z ->
  (length (digitsRadix 16 fuel n) <= k)%nat.
Proof.
  induction fuel as [|fuel IH]; intros k n Hk Hn; cbn [digitsRadix].
  - cbn. lia.
  - destruct (Z.ltb_spec n 16) as [Hlt|Hge].
    + cbn. lia.
    + destruct k as [|[|k]]; [lia | change (16 ^ Z.of_nat 1)%Z with 16%Z in Hn; lia |].
      rewrite length_app. cbn [length].
      assert (length (digitsRadix 16 fuel (n / 16)) <= S k)%nat; [|lia].
      apply IH; [lia|]. split; [apply Z.div_pos; lia|].
      apply Z.div_lt_upper_bound; [lia|].
      replace (Z.of_nat (S (S k))) with (1 + Z.of_nat (S k))%Z in Hn by lia.
      rewrite Z.pow_add_r in Hn by lia. lia.
Qed.

(** The checksum part of a hash has exactly eight characters. *)
Lemma length_checksumPart input : length (checksumPart input) = 8%nat.
Proof.
  unfold checksumPart. rewrite length_toUpperCase, length_padStart.
  pose proof (pseudoHash_h_range input) as Hr.
  assert (length (toStringRadix 16 (pseudoHash_h input)) <= 8)%nat; [|lia].
  apply length_digitsRadix_16; [lia|].
  change (16 ^ Z.of_nat 8)%Z with (2 ^ 32)%Z. exact Hr.
Qed.

Lemma length_randomPart rnd : (length (randomPart rnd) <= 8)%nat.
Proof.
  unfold randomPart, slice. rewrite length_toUpperCase, length_take. lia.
Qed.

(** A hash is its checksum part followed by its random part. *)
Lemma pseudoHash_parts input rnd :
  pseudoHash input rnd = checksumPart input ++ randomPart rnd.
Proof. unfold pseudoHash, checksumPart, randomPart, toUpperCase. apply map_app. Qed.

Lemma take_8_pseudoHash input rnd : take 8 (pseudoHash input rnd) = checksumPart input.
Proof.
  rewrite pseudoHash_parts.
  rewrite take_app_le by (rewrite length_checksumPart; lia).
  apply take_ge. rewrite length_checksumPart. lia.
Qed.

Lemma drop_8_pseudoHash input rnd : drop 8 (pseudoHash input rnd) = randomPart rnd.
Proof.
  rewrite pseudoHash_parts.
  rewrite <- (length_checksumPart input). apply drop_app_length.
Qed.

(** A hash is never the empty string, so it is truthy. *)
Lemma truthy_pseudoHash input rnd : truthy (pseudoHash input rnd) = true.
Proof.
  pose proof (length_checksumPart input) as Hl.
  rewrite pseudoHash_parts.
  destruct (checksumPart input); [discriminate | reflexivity].
Qed.

Lemma pseudoHash_eq_iff input1 rnd1 input2 rnd2 :
  pseudoHash input1 rnd1 = pseudoHash input2 rnd2
  <-> checksumPart input1 = checksumPart input2 /\ randomPart rnd1 = randomPart rnd2.
Proof.
  split.
  - intros Heq. split.
    + now rewrite <- (take_8_pseudoHash input1 rnd1), Heq, take_8_pseudoHash.
    + now rewrite <- (drop_8_pseudoHash input1 rnd1), Heq, drop_8_pseudoHash.
  - intros [H1 H2]. now rewrite !pseudoHash_parts, H1, H2.
Qed.

Lemma unitDigit_digitUnit d : (0 <= d < 36)%Z -> unitDigit (digitUnit d) = d.
Proof.
  intros Hd. unfold unitDigit, digitUnit.
  destruct (Z.ltb_spec d 10).
  - destruct (N.ltb_spec (Z.to_N (48 + d)) 58); lia.
  - destruct (N.ltb_spec (Z.to_N (87 + d)) 58); lia.
Qed.

Lemma unitsValue_snoc radix s c :
  unitsValue radix (s ++ [c]) = (unitsValue radix s * radix + unitDigit c)%Z.
Proof. unfold unitsValue. now rewrite fold_left_app. Qed.

(** With enough fuel the digits are those of the number. *)
Lemma digitsRadix_value radix fuel :
  (2 <= radix <= 36)%Z ->
  forall n, (0 <= n < radix ^ Z.of_nat fuel)%Z ->
  unitsValue radix (digitsRadix radix fuel n) = n.
Proof.
  intros Hr. induction fuel as [|fuel IH]; intros n Hn.
  - cbn in *. lia.
  - cbn [digitsRadix]. destruct (Z.ltb_spec n radix) as [Hlt|Hge].
    + cbn. rewrite unitDigit_digitUnit; lia.
    + rewrite unitsValue_snoc, IH, unitDigit_digitUnit.
      * pose proof (Z.div_mod n radix). lia.
      * pose proof (Z.mod_pos_bound n radix). lia.
      * split; [apply Z.div_pos; lia|]. apply Z.div_lt_upper_bound; [lia|].
        rewrite Nat2Z.inj_succ, Z.pow_succ_r in Hn by lia. lia.
Qed.

(** The fuel of [toStringRadix] is enough: the string it returns reads back
    as the number. *)
Lemma toStringRadix_value radix n :
  (2 <= radix <= 36)%Z -> (0 <= n)%Z -> unitsValue radix (toStringRadix radix n) = n.
Proof.
  intros Hr Hn. unfold toStringRadix. apply digitsRadix_value; [done|].
  split; [done|]. rewrite Nat2Z.inj_succ, Z2Nat.id by apply Z.log2_nonneg.
  destruct (Z.eq_dec n 0%Z) as [->|Hn0]; [cbn; lia|].
  pose proof (Z.log2_spec n ltac:(lia)) as [_ Hlog].
  eapply Z.lt_le_trans; [exact Hlog|].
  apply Z.pow_le_mono_l. pose proof (Z.log2_nonneg n). lia.
Qed.

Example toStringRadix_16_255 : toStringRadix 16 255 = js "ff".
Proof. reflexivity. Qed.

Example toStringRadix_10_1001 : toStringRadix 10 1001 = js "1001".
Proof. reflexivity. Qed.

Example pseudoHash_GENESIS : pseudoHash (js "GENESIS") demoDraw = js "260499888F3A91C2".
Proof. reflexivity. Qed.

Lemma makeBlock_hash `{Host} prevHash data e :
  hash (makeBlock prevHash data e) = computeHash prevHash data (hashInstant e) (randomDraw e).
Proof. reflexivity. Qed.

(** C3 (as amended): the hash of a block is determined by previousHash,
    payload and timestamp only up to the random draw of [pseudoHash].  Its
    first eight characters are the same in any two calls with identical
    previousHash, payload and timestamp; the two hashes are equal exactly when
    the digits kept of the two calls' [Math.random()] draws are equal.  In
    [makeBlock] the hashed instant and the random draw are read inside the
    call, and the [timestamp] it stores is a second reading of the clock. *)
Theorem computeHash_determined_up_to_random_draw `{Host}
    (prevHash : jsstring) (payload : BlockData) (instant rnd1 rnd2 : jsstring) :
  take 8 (computeHash prevHash payload instant rnd1)
    = take 8 (computeHash prevHash payload instant rnd2)
  /\ (computeHash prevHash payload instant rnd1 = computeHash prevHash payload instant rnd2
      <-> randomPart rnd1 = randomPart rnd2)
  /\ (forall e : Entropy,
        hash (makeBlock prevHash payload e)
        = computeHash prevHash payload (hashInstant e) (randomDraw e)
        /\ timestamp (makeBlock prevHash payload e) = stampInstant e).
Proof.
  unfold computeHash. split; [|split].
  - now rewrite !take_8_pseudoHash.
  - rewrite pseudoHash_eq_iff. tauto.
  - intros e. split; reflexivity.
Qed.

(** C3 as stated fails: two calls with the same previousHash, payload and
    timestamp, in which [Math.random().toString(16)] is [0.1] and then [0.2],
    give two different hashes. *)
Lemma computeHash_two_calls_differ :
  @computeHash decimalHost (js "0xGENESIS") (GENESIS (js "Agronova Chain Initialized"))
    demoInstant (js "0.1") = js "8964D7401"
  /\ @computeHash decimalHost (js "0xGENESIS") (GENESIS (js "Agronova Chain Initialized"))
       demoInstant (js "0.2") = js "8964D7402".
Proof. split; reflexivity. Qed.

(** ** The chain *)

Lemma linked_from_snoc c : forall expected i l b,
  linked_from expected i c -> list.last c = Some l ->
  prevHash b = hash l -> index b = (index l + 1)%Z ->
  linked_from expected i (c ++ [b]).
Proof.
  induction c as [|x c IH]; intros expected i l b Hc Hlast Hp Hi; [discriminate|].
  destruct Hc as (Hx & Hxi & Hrest). cbn [app linked_from]. split; [done|]. split; [done|].
  destruct c as [|y c].
  - cbn in Hlast. injection Hlast as <-. cbn. repeat split; [done | lia].
  - apply (IH _ _ l); try done.
Qed.

Lemma linked_from_lookup c : forall expected i (k : nat) b b',
  linked_from expected i c -> c !! k = Some b -> c !! S k = Some b' ->
  prevHash b' = hash b /\ index b' = (index b + 1)%Z.
Proof.
  induction c as [|x c IH]; intros expected i k b b' Hc Hk Hk'; [discriminate|].
  destruct Hc as (Hx & Hxi & Hrest). destruct k as [|k].
  - cbn in Hk. injection Hk as <-. destruct c as [|y c]; [discriminate|].
    cbn in Hk'. injection Hk' as <-. destruct Hrest as (? & ? & _). split; [done | lia].
  - exact (IH _ _ k b b' Hrest Hk Hk').
Qed.

(** A block's index is its position when the chain starts from index [i]. *)
Lemma linked_from_index c : forall expected i (k : nat) b,
  linked_from expected i c -> c !! k = Some b -> index b = (i + Z.of_nat k)%Z.
Proof.
  induction c as [|x c IH]; intros expected i k b Hc Hk; [discriminate|].
  destruct Hc as (Hx & Hxi & Hrest). destruct k as [|k].
  - cbn in Hk. injection Hk as <-. lia.
  - cbn in Hk. rewrite (IH _ _ _ _ Hrest Hk). lia.
Qed.

Lemma linked_from_chain_linked c :
  c <> [] -> linked_from (js "0xGENESIS") 0 c -> chain_linked c.
Proof.
  intros Hne Hc. split.
  - destruct c as [|g c]; [done|]. exists g. destruct Hc as (? & ? & _). done.
  - intros i b b'. apply (linked_from_lookup c _ _ i b b' Hc).
Qed.

(** The seed blocks continue the chain from the hash before them: the test
    [arr[i - 1]._hashTemp || genesis.hash] always takes [_hashTemp], a hash
    being non-empty. *)
Lemma seedBlocks_linked `{Host} genesisHash es arr : forall i before expected,
  (i = 0%nat -> expected = genesisHash) ->
  (i <> 0%nat -> exists q, before = Some q /\ p_hashTemp q = Some expected
                            /\ truthy expected = true) ->
  linked_from expected (Z.of_nat i + 1) (fst <$> seedBlocks genesisHash es i before arr).
Proof.
  induction arr as [|p arr IH]; intros i before expected H0 HS; [exact I|].
  cbn [seedBlocks fmap list_fmap fst linked_from prevHash index hash set_index makeBlock].
  split; [|split; [reflexivity|]].
  - destruct i as [|i]; [symmetry; auto|].
    destruct HS as (q & -> & Hq & Ht); [done|]. cbn. rewrite Hq. cbn. now rewrite Ht.
  - replace (Z.of_nat i + 1 + 1)%Z with (Z.of_nat (S i) + 1)%Z by lia.
    apply IH; [done|]. intros _. eexists. split; [reflexivity|]. split; [reflexivity|].
    apply truthy_pseudoHash.
Qed.

Lemma initialState_linked `{Host} now rnd es :
  linked_from (js "0xGENESIS") 0 (chain (initialState now rnd es)).
Proof.
  cbn [initialState chain linked_from genesisBlock prevHash index hash].
  split; [reflexivity|]. split; [reflexivity|].
  apply (seedBlocks_linked _ es seedProducts 0%nat None); [done|done].
Qed.

Lemma appendBlock_snoc `{Host} data e c c' :
  appendBlock data e c = Some c' ->
  exists l, list.last c = Some l
            /\ c' = c ++ [set_index (makeBlock (hash l) data e) (index l + 1)].
Proof.
  unfold appendBlock. destruct (list.last c) as [l|]; [|discriminate].
  intros [= <-]. eauto.
Qed.

Lemma appendBlock_linked `{Host} data e c c' expected i :
  appendBlock data e c = Some c' -> linked_from expected i c -> linked_from expected i c'.
Proof.
  intros (l & Hl & ->)%appendBlock_snoc Hc. now apply (linked_from_snoc c _ _ l).
Qed.

(** [appendBlock] returns on every non-empty chain. *)
Lemma appendBlock_total `{Host} data e c :
  c <> [] -> exists c', appendBlock data e c = Some c'.
Proof.
  intros Hne. unfold appendBlock.
  destruct (list.last c) as [l|] eqn:Hl; [eauto|]. now apply last_None in Hl.
Qed.

Lemma appendBlock_nonempty `{Host} data e c c' : appendBlock data e c = Some c' -> c' <> [].
Proof. intros (l & _ & ->)%appendBlock_snoc. now destruct c. Qed.

Lemma chain_reachable_linked_from `{Host} c :
  chain_reachable c -> c <> [] /\ linked_from (js "0xGENESIS") 0 c.
Proof.
  induction 1 as [now rnd es | c data e c' _ [Hne IH] Happ | c now rnd _ _].
  - split; [done | apply initialState_linked].
  - split; [eapply appendBlock_nonempty | eapply appendBlock_linked]; eauto.
  - split; [done|]. cbn. done.
Qed.

(** C1: in every chain the code produces (the seeded chain, any chain after
    calls of [appendBlock], the chain after a reset) block 0 has prevHash
    ["0xGENESIS"] and index 0, every later block's prevHash is the hash of
    the block before it, and its index is one more than that block's. *)
Theorem reachable_chain_linked `{Host} (c : list Block) :
  chain_reachable c -> chain_linked c.
Proof.
  intros [Hne Hc]%chain_reachable_linked_from. now apply linked_from_chain_linked.
Qed.

(** C1 at the seeded chain of the demo run followed by one appended block. *)
Lemma reachable_chain_linked_witness : chain_linked demoAppended.
Proof.
  apply (@reachable_chain_linked decimalHost).
  apply (@chain_append decimalHost (chain demoInitial)
           (GENESIS (js "again")) demoEntropy demoAppended).
  - apply chain_init.
  - vm_compute. reflexivity.
Defined.

(** ** Verifying a chain *)

Lemma verifyLinksFrom_linked c : forall expected i position,
  linked_from expected i c -> verifyLinksFrom expected position c = None.
Proof.
  induction c as [|b c IH]; intros expected i position Hc; [reflexivity|].
  destruct Hc as (Hp & _ & Hrest). cbn [verifyLinksFrom].
  rewrite bool_decide_eq_true_2 by done. eapply IH, Hrest.
Qed.

(** Every chain the code produces starts with a genesis literal. *)
Lemma chain_reachable_head `{Host} c :
  chain_reachable c -> exists now rnd rest, c = genesisBlock now rnd :: rest.
Proof.
  induction 1 as [now rnd es | c data e c' _ (now & rnd & rest & ->) Happ | c now rnd _ _].
  - do 3 eexists. reflexivity.
  - apply appendBlock_snoc in Happ as (l & _ & ->). do 3 eexists. reflexivity.
  - do 3 eexists. reflexivity.
Qed.

Lemma otherDraw_differs rnd : randomPart (otherDraw rnd) <> randomPart rnd.
Proof. unfold otherDraw. destruct (randomPart rnd) eqn:E; cbn; congruence. Qed.

(** C2 (as amended): after any sequence of [appendBlock] calls (and in every
    chain the code produces) the linkage scan succeeds: every block's
    previousHash is the hash of its predecessor, the sentinel for block 0.
    The recomputation of hashes is not part of what holds: a hash ends in
    digits of [Math.random()], so for every such chain there is an outcome of
    the random draws of the recomputation with which the full scan fails,
    already at index 0. *)
Theorem verifyLinks_reachable `{Host} (c : list Block) :
  chain_reachable c ->
  verifyLinks c = None /\ exists draws, verify draws c = Some 0%nat.
Proof.
  intros Hreach. split.
  - apply chain_reachable_linked_from in Hreach as [_ Hc].
    now apply (verifyLinksFrom_linked c _ 0%Z).
  - apply chain_reachable_head in Hreach as (now & rnd & rest & ->).
    exists (fun _ => otherDraw rnd). unfold verify. cbn [verifyFrom].
    rewrite (bool_decide_eq_false_2 (hash _ = _)); [now rewrite andb_false_r|].
    cbn [genesisBlock hash prevHash data timestamp]. unfold computeHash.
    intros [_ Hr]%pseudoHash_eq_iff. now apply (otherDraw_differs rnd).
Qed.

(** C2 at the chain of the demo run with one appended block. *)
Lemma verifyLinks_reachable_witness :
  verifyLinks demoAppended = None
  /\ exists draws, @verify decimalHost draws demoAppended = Some 0%nat.
Proof.
  apply (@verifyLinks_reachable decimalHost).
  apply (@chain_append decimalHost (chain demoInitial)
           (GENESIS (js "again")) demoEntropy demoAppended).
  - apply chain_init.
  - vm_compute. reflexivity.
Defined.

(** C2 as stated fails: on the seeded chain of the demo run, with the
    recomputation given the very instant and random digits the chain was
    built with, the scan stops at index 0: the genesis hash was computed from
    the text [GENESIS], not from the block's contents. *)
Lemma verify_fails_on_seeded_chain :
  @verify decimalHost (fun _ => demoDraw) (chain demoInitial) = Some 0%nat
  /\ (hash <$> chain demoInitial !! 0%nat) = Some (js "260499888F3A91C2")
  /\ ((fun g => @computeHash decimalHost (prevHash g) (data g) (timestamp g) demoDraw)
        <$> chain demoInitial !! 0%nat) = Some (js "8964D7408F3A91C2").
Proof. repeat split; vm_compute; reflexivity. Qed.

(** ** Reset *)

(** C8: after a confirmed reset, whatever the state before, the chain is
    exactly one block, a genesis block with index 0 and prevHash
    ["0xGENESIS"], and the products list is empty. *)
Theorem resetBlockchain_fresh_genesis (now rnd : jsstring) (st : AppState) :
  exists g,
    chain (resetBlockchain true now rnd st) = [g]
    /\ length (chain (resetBlockchain true now rnd st)) = 1%nat
    /\ index g = 0%Z
    /\ prevHash g = js "0xGENESIS"
    /\ data g = GENESIS (js "Agronova Chain Initialized")
    /\ hash g = pseudoHash (js "GENESIS") rnd
    /\ products (resetBlockchain true now rnd st) = [].
Proof. exists (genesisBlock now rnd). repeat split. Qed.

(** A reset the admin does not confirm changes nothing. *)
Lemma resetBlockchain_declined now rnd st : resetBlockchain false now rnd st = st.
Proof. reflexivity. Qed.

(** ** Listing *)

Lemma listProduct_inv `{Host} a e st st' :
  listProduct a e st = Some st' ->
  exists u chain',
    user st = Some u
    /\ appendBlock (LISTING
         (mkProduct (l_id a) (l_name a) (Number (l_quantityKg a)) (Number (l_basePricePerKg a))
            (with_actor_id (l_farmer a) (u_id u)) LISTED None None)
         (with_actor_id (l_farmer a) (u_id u))) e (chain st) = Some chain'
    /\ st' = {| view := view st;
                products := mkProduct (l_id a) (l_name a) (Number (l_quantityKg a))
                              (Number (l_basePricePerKg a))
                              (with_actor_id (l_farmer a) (u_id u)) LISTED None None
                            :: products st;
                chain := chain';
                user := user st;
                toast := Some (mkToast (js "Product listed successfully!") success) |}.
Proof.
  unfold listProduct. destruct (user st) as [u|]; [|discriminate].
  destruct (appendBlock _ e (chain st)) as [chain'|] eqn:Happ; [|discriminate].
  intros [= <-]. eauto.
Qed.

(** With a user logged in and a non-empty chain [listProduct] returns, puts
    its product first and makes the chain one block longer. *)
Lemma listProduct_returns `{Host} a e st u :
  user st = Some u -> chain st <> [] ->
  exists st',
    listProduct a e st = Some st'
    /\ products st'
       = mkProduct (l_id a) (l_name a) (Number (l_quantityKg a)) (Number (l_basePricePerKg a))
           (with_actor_id (l_farmer a) (u_id u)) LISTED None None :: products st
    /\ length (chain st') = S (length (chain st)).
Proof.
  intros Hu Hne.
  destruct (appendBlock_total
              (LISTING
                 (mkProduct (l_id a) (l_name a) (Number (l_quantityKg a))
                    (Number (l_basePricePerKg a))
                    (with_actor_id (l_farmer a) (u_id u)) LISTED None None)
                 (with_actor_id (l_farmer a) (u_id u))) e (chain st) Hne) as [c' Happ].
  pose proof Happ as (l & Hl & ->)%appendBlock_snoc.
  eexists. unfold listProduct. rewrite Hu, Happ. split; [reflexivity|].
  cbn [products chain]. split; [reflexivity|]. rewrite length_app. cbn. lia.
Qed.

(** C10: whenever a user is logged in (and the chain has its genesis block),
    [listProduct] returns, and whatever farmer id its argument carries, the
    product it stores and the LISTING block it appends are attributed to the
    logged-in user: the product's [farmer.id] and the block's [actor.id] are
    both the user's id. *)
Theorem listProduct_attributes_to_user `{Host}
    (a : Listing) (e : Entropy) (st : AppState) (u : User) :
  user st = Some u -> chain st <> [] ->
  exists st' newProd b actor,
    listProduct a e st = Some st'
    /\ products st' = newProd :: products st
    /\ actor_id (p_farmer newProd) = u_id u
    /\ exists l, list.last (chain st) = Some l
    /\ chain st' = chain st ++ [b]
    /\ data b = LISTING newProd actor
    /\ actor_id actor = u_id u.
Proof.
  intros Hu Hne.
  destruct (appendBlock_total
              (LISTING
                 (mkProduct (l_id a) (l_name a) (Number (l_quantityKg a))
                    (Number (l_basePricePerKg a))
                    (with_actor_id (l_farmer a) (u_id u)) LISTED None None)
                 (with_actor_id (l_farmer a) (u_id u))) e (chain st) Hne) as [c' Happ].
  pose proof Happ as (l & Hl & ->)%appendBlock_snoc.
  do 4 eexists. unfold listProduct. rewrite Hu, Happ. split; [reflexivity|].
  cbn [products chain]. split; [reflexivity|]. split; [reflexivity|].
  exists l. split; [done|]. split; [reflexivity|]. split; reflexivity.
Qed.

(** C10 at the demo run: farmer1 (F-001) is logged in and the argument names
    farmer F-999. *)
Lemma listProduct_attributes_to_user_witness :
  exists st' newProd b actor,
    @listProduct decimalHost (demoListing "5" "40") demoEntropy demoFarmerState = Some st'
    /\ products st' = newProd :: products demoFarmerState
    /\ actor_id (p_farmer newProd) = js "F-001"
    /\ exists l, list.last (chain demoFarmerState) = Some l
    /\ chain st' = chain demoFarmerState ++ [b]
    /\ data b = LISTING newProd actor
    /\ actor_id actor = js "F-001".
Proof.
  apply (@listProduct_attributes_to_user decimalHost (demoListing "5" "40") demoEntropy
           demoFarmerState
           (mkUser (js "F-001") (js "farmer1") (js "password1") farmer (js "Ravi Kumar")
              (Some (js "Narsinghpur")))).
  - reflexivity.
  - discriminate.
Defined.

(** C5 as stated fails: [listProduct] itself checks nothing.  Called on the
    demo run with quantity [0] and price [-5] it stores the product and
    appends a block. *)
Lemma listProduct_accepts_nonpositive :
  number_le_zero (@Number decimalHost (js "0")) = true
  /\ number_le_zero (@Number decimalHost (js "-5")) = true
  /\ length (products demoFarmerState) = 2%nat
  /\ length (chain demoFarmerState) = 3%nat
  /\ exists st',
       @listProduct decimalHost (demoListing "0" "-5") demoEntropy demoFarmerState = Some st'
       /\ length (products st') = 3%nat
       /\ length (chain st') = 4%nat
       /\ error_surfaced st' = false.
Proof.
  do 4 (split; [reflexivity|]).
  eexists. split; [vm_compute; reflexivity|]. repeat split.
Qed.

(** C5 (as amended): a listing request made through the Farmer form whose
    quantity or price is not positive is rejected before [listProduct] is
    called: the click leaves [products] and [chain] (the whole state of the
    app) as they were and the form as it was.  If the button is enabled,
    [validateForm] records the message for each offending field. *)
Theorem farmerUpload_rejects_nonpositive `{Host}
    (n : Z) (e : Entropy) (st : AppState) (fs : FarmerState) :
  number_le_zero (Number (f_quantityKg (form fs))) = true
  \/ number_le_zero (Number (f_basePricePerKg (form fs))) = true ->
  exists fs',
    farmerUpload n e st fs = Some (st, fs')
    /\ form fs' = form fs
    /\ (uploadDisabled (form fs) = false ->
        (number_le_zero (Number (f_quantityKg (form fs))) = true ->
         err_quantityKg (errors fs') = Some (js "Valid quantity is required"))
        /\ (number_le_zero (Number (f_basePricePerKg (form fs))) = true ->
            err_basePricePerKg (errors fs') = Some (js "Valid price is required"))).
Proof.
  intros Hbad. unfold farmerUpload.
  destruct (uploadDisabled (form fs)) eqn:Hdis.
  - exists fs. split; [reflexivity|]. split; [reflexivity|]. discriminate.
  - exists {| form := form fs; errors := fst (validateForm (form fs)) |}.
    destruct (validateForm (form fs)) as [newErrors ok] eqn:Hv.
    unfold validateForm in Hv. injection Hv as HnewErrors Hok.
    cbn [err_name err_quantityKg err_basePricePerKg] in Hok.
    assert (ok = false) as ->.
    { rewrite <- Hok. destruct Hbad as [-> | ->]; rewrite orb_true_r.
      - now destruct (negb (truthy (f_name (form fs)))).
      - now destruct (negb (truthy (f_name (form fs)))),
                     (negb (truthy (f_quantityKg (form fs)))
                      || number_le_zero (Number (f_quantityKg (form fs)))). }
    cbn [negb fst form errors]. split; [reflexivity|]. split; [reflexivity|].
    intros _. rewrite <- HnewErrors. cbn [err_quantityKg err_basePricePerKg].
    split; intros ->; now rewrite orb_true_r.
Qed.

(** C5 at the demo run: farmer1 submits a filled form with quantity [0]. *)
Lemma farmerUpload_rejects_nonpositive_witness :
  exists fs',
    @farmerUpload decimalHost 2000 demoEntropy demoFarmerState
      (mkFarmerState (demoForm "0" "40") noErrors) = Some (demoFarmerState, fs')
    /\ form fs' = demoForm "0" "40"
    /\ (uploadDisabled (demoForm "0" "40") = false ->
        (number_le_zero (@Number decimalHost (js "0")) = true ->
         err_quantityKg (errors fs') = Some (js "Valid quantity is required"))
        /\ (number_le_zero (@Number decimalHost (js "40")) = true ->
            err_basePricePerKg (errors fs') = Some (js "Valid price is required"))).
Proof.
  apply (@farmerUpload_rejects_nonpositive decimalHost 2000 demoEntropy demoFarmerState
           (mkFarmerState (demoForm "0" "40") noErrors)).
  left. reflexivity.
Defined.

(** ** Ordering *)

Lemma find_id_None (ps : list Product) productId :
  (forall p, p ∈ ps -> p_id p <> productId) ->
  List.find (fun p => bool_decide (p_id p = productId)) ps = None.
Proof.
  induction ps as [|p ps IH]; intros Hno; [reflexivity|]. cbn [List.find].
  rewrite bool_decide_eq_false_2 by (apply Hno; left).
  apply IH. intros q Hq. apply Hno. now right.
Qed.

Lemma find_id_Some (ps : list Product) productId prod :
  List.find (fun p => bool_decide (p_id p = productId)) ps = Some prod ->
  prod ∈ ps /\ p_id prod = productId.
Proof.
  intros Hf. apply find_some in Hf as [Hin Hid].
  apply list_elem_of_In in Hin. now apply bool_decide_eq_true in Hid.
Qed.

Lemma map_sold_unknown (ps : list Product) productId b :
  (forall p, p ∈ ps -> p_id p <> productId) ->
  map (fun p => if bool_decide (p_id p = productId) then sold_to p b else p) ps = ps.
Proof.
  induction ps as [|p ps IH]; intros Hno; [reflexivity|]. cbn [map].
  rewrite bool_decide_eq_false_2 by (apply Hno; left).
  f_equal. apply IH. intros q Hq. apply Hno. now right.
Qed.

(** C6 (as amended): [orderProduct] with a productId that no product has
    returns without effect and without any report: the state after the call
    is the state before it, so [products] and [chain] are unchanged, no block
    is appended, and no toast (of type error or otherwise) is shown. *)
Theorem orderProduct_unknown_id `{Host}
    (productId : jsstring) (b : BrokerRef) (confirm : bool) (e : Entropy) (st : AppState) :
  (forall p, p ∈ products st -> p_id p <> productId) ->
  orderProduct productId b confirm e st = Some st.
Proof.
  intros Hno. unfold orderProduct. destruct confirm; cbn [negb]; [|reflexivity].
  rewrite find_id_None, map_sold_unknown by done. now destruct st.
Qed.

(** C6 at the demo run: broker1 orders AGR-9999, which was never listed. *)
Lemma orderProduct_unknown_id_witness :
  @orderProduct decimalHost (js "AGR-9999") demoBroker true demoEntropy demoBrokerState
  = Some demoBrokerState.
Proof.
  apply (@orderProduct_unknown_id decimalHost).
  intros p Hp. vm_compute in Hp.
  apply elem_of_cons in Hp as [->|Hp]; [discriminate|].
  apply elem_of_cons in Hp as [->|Hp]; [discriminate|].
  now apply elem_of_nil in Hp.
Defined.

(** C6 as stated fails: the call for the unknown id AGR-9999 surfaces no
    error.  The state it returns shows no error toast, and is the state
    before the call. *)
Lemma orderProduct_unknown_id_silent :
  exists st',
    @orderProduct decimalHost (js "AGR-9999") demoBroker true demoEntropy
      (clearToast demoBrokerState) = Some st'
    /\ error_surfaced st' = false
    /\ toast st' = None.
Proof. eexists. split; [vm_compute; reflexivity|]. split; reflexivity. Qed.

Lemma status_kept_refl (ps : list Product) : Forall2 status_kept ps ps.
Proof. induction ps; constructor; [split; auto | done]. Qed.

Lemma status_kept_sold (ps : list Product) productId b :
  Forall2 status_kept ps
    (map (fun p => if bool_decide (p_id p = productId) then sold_to p b else p) ps).
Proof.
  induction ps as [|p ps IH]; cbn [map]; constructor; [|done].
  case_bool_decide; [|split; auto]. split; [reflexivity|].
  cbn [sold_to p_status]. destruct (p_status p); auto.
Qed.

(** Every call of [orderProduct] that returns keeps the products in place;
    each keeps its id and its status, or goes from LISTED to SOLD. *)
Lemma orderProduct_status `{Host} productId b confirm e st st' :
  orderProduct productId b confirm e st = Some st' ->
  Forall2 status_kept (products st) (products st').
Proof.
  unfold orderProduct. destruct confirm; cbn [negb].
  - destruct (List.find _ (products st)) as [prod|].
    + destruct (appendBlock _ e (chain st)); [|discriminate].
      intros [= <-]. apply status_kept_sold.
    + intros [= <-]. apply status_kept_sold.
  - intros [= <-]. apply status_kept_refl.
Qed.

(** A click on the upload button leaves the state as it is or lists one
    product. *)
Lemma farmerUpload_inv `{Host} n e st fs st' fs' :
  farmerUpload n e st fs = Some (st', fs') ->
  st' = st
  \/ exists u a, user st = Some u /\ l_id a = f_id (form fs)
                 /\ actor_id (l_farmer a) = u_id u
                 /\ listProduct a e st = Some st'.
Proof.
  unfold farmerUpload. destruct (uploadDisabled (form fs)); [intros [= <- _]; now left|].
  destruct (validateForm (form fs)) as [newErrors ok].
  destruct ok; cbn [negb]; [|intros [= <- _]; now left].
  destruct (user st) as [u|] eqn:Hu; [|discriminate].
  destruct (listProduct _ e st) as [st1|] eqn:Hl; [|discriminate].
  intros [= <- _]. right. do 2 eexists. split; [reflexivity|]. split; [|split; [|exact Hl]]; reflexivity.
Qed.

Lemma available_listed (ps : list Product) p : p ∈ available ps -> p_status p = LISTED.
Proof. unfold available. now intros [? _]%list_elem_of_filter. Qed.

(** C4 as stated fails: [orderProduct] checks no status and returns no
    error.  After broker1's order AGR-1001 is SOLD; a second call for it
    appends one more TRANSFER block and shows the success toast. *)
Lemma orderProduct_on_sold_appends :
  (p_status <$> List.find (fun p => bool_decide (p_id p = js "AGR-1001"))
                  (products demoSoldState)) = Some SOLD
  /\ length (chain demoSoldState) = 4%nat
  /\ exists st',
       @orderProduct decimalHost (js "AGR-1001") (mkBrokerRef (js "B-002") (js "Other"))
         true demoEntropy demoSoldState = Some st'
       /\ length (chain st') = 5%nat
       /\ (data_type <$> (data <$> list.last (chain st'))) = Some (js "TRANSFER")
       /\ error_surfaced st' = false
       /\ (toast_message <$> toast st') = Some (js "Order placed successfully!").
Proof.
  do 2 (split; [reflexivity|]).
  eexists. split; [vm_compute; reflexivity|]. repeat split.
Qed.

(** ** Product ids *)

(** C9 fails on the code: the state in which farmer1, logged in on the seeded
    state, uploads a form whose drawn id is AGR-1001 is reachable, and its
    products list holds the id AGR-1001 twice. *)
Theorem duplicate_product_id_reachable :
  @reachable decimalHost demoDuplicateState
  /\ (p_id <$> products demoDuplicateState) = [js "AGR-1001"; js "AGR-1001"; js "AGR-1002"]
  /\ ~ NoDup (p_id <$> products demoDuplicateState).
Proof.
  split; [|split; [reflexivity|]].
  - apply (@reachable_step decimalHost demoFarmerState).
    + apply (@reachable_step decimalHost demoInitial).
      * apply reachable_init.
      * apply (@step_login decimalHost demoInitial); reflexivity.
    + apply (@step_upload decimalHost demoFarmerState
               (mkFarmerState (demoForm "5" "40") noErrors) 1001 1002 demoEntropy
               demoDuplicateState
               (mkFarmerState
                  (freshForm (mkUser (js "F-001") (js "farmer1") (js "password1") farmer
                                (js "Ravi Kumar") (Some (js "Narsinghpur"))) 1002)
                  noErrors)).
      * reflexivity.
      * eexists. split; reflexivity.
      * lia.
      * reflexivity.
      * vm_compute. reflexivity.
  - intros Hnd. change (p_id <$> products demoDuplicateState)
      with [js "AGR-1001"; js "AGR-1001"; js "AGR-1002"] in Hnd.
    inversion Hnd as [|x l Hnotin _]; subst. apply Hnotin. left.
Qed.

(** ** Tracing *)

Lemma seedBlocks_listings `{Host} genesisHash es arr : forall i before,
  Forall2 (fun p bp => p_id (snd bp) = p_id p /\ is_listing_of (p_id p) (fst bp))
    arr (seedBlocks genesisHash es i before arr).
Proof.
  induction arr as [|p arr IH]; intros i before; cbn [seedBlocks]; constructor; [|apply IH].
  cbn [fst snd]. split; [reflexivity|]. do 2 eexists. split; reflexivity.
Qed.

Lemma Forall2_listings_products (arr : list Product) (seeded : list (Block * Product)) :
  Forall2 (fun p bp => p_id (snd bp) = p_id p /\ is_listing_of (p_id p) (fst bp)) arr seeded ->
  Forall (fun p => truthy (p_id p) = true) arr ->
  (forall p', p' ∈ (snd <$> seeded) ->
     truthy (p_id p') = true /\ exists b, b ∈ (fst <$> seeded) /\ is_listing_of (p_id p') b)
  /\ (forall b, b ∈ (fst <$> seeded) ->
        exists id, is_listing_of id b /\ truthy id = true).
Proof.
  induction 1 as [|p bp arr seeded [Hid Hl] _ IH]; intros Harr.
  - split; intros ? Hin; cbn in Hin; now apply elem_of_nil in Hin.
  - inversion Harr as [|? ? Hp Harr']; subst. destruct (IH Harr') as [IH1 IH2].
    rewrite !fmap_cons. split.
    + intros p' [-> | Hin]%elem_of_cons.
      * rewrite Hid. split; [done|]. exists (fst bp). split; [left | done].
      * destruct (IH1 p' Hin) as (? & b & ? & ?). split; [done|].
        exists b. split; [now right | done].
    + intros b [-> | Hin]%elem_of_cons; [eauto | now apply IH2].
Qed.

Lemma is_listing_not_transfer id id' b : is_listing_of id b -> is_transfer_of id' b -> False.
Proof. intros (? & ? & Hl & _) (? & ? & ? & ? & Ht & _). congruence. Qed.

Lemma is_listing_product_id id b :
  is_listing_of id b -> data_product_id (data b) = Some id.
Proof. intros (p & a & -> & <-). reflexivity. Qed.

Lemma ledger_inv_initial `{Host} now rnd es : ledger_inv (initialState now rnd es).
Proof.
  pose proof (initialState_linked now rnd es) as Hlinked.
  pose proof (seedBlocks_listings (hash (genesisBlock now rnd)) es seedProducts 0 None) as HF.
  apply Forall2_listings_products in HF as [HP HB]; [|repeat constructor].
  unfold initialState in *. cbn [chain products] in *.
  set (seeded := seedBlocks _ es 0 None seedProducts) in *. clearbody seeded.
  set (g := genesisBlock now rnd) in *.
  split; cbn [chain products].
  - done.
  - exact Hlinked.
  - intros p Hp. destruct (HP p Hp) as (? & b & ? & ?). split; [done|].
    exists b. split; [now right | done].
  - intros j t id Hj Ht. exfalso. destruct j as [|j].
    + injection Hj as <-. destruct Ht as (? & ? & ? & ? & ? & _). discriminate.
    + change ((fst <$> seeded) !! j = Some t) in Hj. apply list_elem_of_lookup_2 in Hj.
      destruct (HB t Hj) as (id' & Hl & _). eapply is_listing_not_transfer; eauto.
  - intros b id [-> | Hin]%elem_of_cons Hid; [discriminate|].
    destruct (HB b Hin) as (id' & Hl & Ht).
    apply is_listing_product_id in Hl. congruence.
Qed.

(** The invariant does not look at [view], [user] and [toast]. *)
Lemma ledger_inv_same st st' :
  products st' = products st -> chain st' = chain st -> ledger_inv st -> ledger_inv st'.
Proof.
  intros Hp Hc [? ? ? ? ?]. split; rewrite ?Hp, ?Hc; done.
Qed.

Lemma truthy_formId n : truthy (formId n) = true.
Proof. reflexivity. Qed.

Lemma ledger_inv_listProduct `{Host} a e st st' :
  truthy (l_id a) = true -> listProduct a e st = Some st' -> ledger_inv st -> ledger_inv st'.
Proof.
  intros Hid (u & chain' & _ & Happ & ->)%listProduct_inv [Hne Hlink Hprod Htr Hids].
  pose proof Happ as (l & Hl & ->)%appendBlock_snoc.
  set (b := set_index _ _). split; cbn [products chain].
  - now destruct (chain st).
  - eapply appendBlock_linked; eauto.
  - intros p [-> | Hin]%elem_of_cons.
    + split; [done|]. exists b. split; [apply elem_of_app; right; left|].
      do 2 eexists. split; reflexivity.
    + destruct (Hprod p Hin) as (? & b0 & ? & ?). split; [done|].
      exists b0. split; [apply elem_of_app; now left | done].
  - intros j t id Hj Ht.
    destruct (decide (j < length (chain st))%nat) as [Hlt|Hge].
    + rewrite lookup_app_l in Hj by done.
      destruct (Htr j t id Hj Ht) as (i & l0 & ? & ? & ?). exists i, l0.
      split; [done|]. split; [|done]. rewrite lookup_app_l by lia. done.
    + exfalso. rewrite lookup_app_r in Hj by lia.
      destruct (j - length (chain st))%nat; [|destruct n; discriminate].
      cbn in Hj. injection Hj as <-. destruct Ht as (? & ? & ? & ? & ? & _). discriminate.
  - intros b0 id [Hin | Hin]%elem_of_app Hb0; [eauto|].
    apply list_elem_of_singleton in Hin as ->. cbn in Hb0. congruence.
Qed.

Lemma ledger_inv_orderProduct `{Host} productId b confirm e st st' :
  orderProduct productId b confirm e st = Some st' -> ledger_inv st -> ledger_inv st'.
Proof.
  intros Hord Hinv. pose proof Hinv as [Hne Hlink Hprod Htr Hids].
  assert (forall p', p' ∈ map (fun p => if bool_decide (p_id p = productId)
                                        then sold_to p b else p) (products st) ->
          exists p, p ∈ products st /\ p_id p' = p_id p) as Hmap.
  { intros p' Hin. apply list_elem_of_In, in_map_iff in Hin as (p & <- & Hin).
    exists p. split; [now apply list_elem_of_In|]. now case_bool_decide. }
  revert Hord. unfold orderProduct. destruct confirm; cbn [negb]; [|now intros [= <-]].
  destruct (List.find _ (products st)) as [prod|] eqn:Hfind.
  - destruct (appendBlock _ e (chain st)) as [chain'|] eqn:Happ; [|discriminate].
    intros [= <-]. apply find_id_Some in Hfind as [Hprodin _].
    destruct (Hprod prod Hprodin) as (Hidprod & lb & Hlbin & Hlb).
    pose proof Happ as (l & Hl & ->)%appendBlock_snoc.
    split; cbn [products chain].
    + now destruct (chain st).
    + eapply appendBlock_linked; eauto.
    + intros p' (p & Hin & ->)%Hmap. destruct (Hprod p Hin) as (? & b0 & ? & ?).
      split; [done|]. exists b0. split; [apply elem_of_app; now left | done].
    + intros j t id Hj Ht.
      destruct (decide (j < length (chain st))%nat) as [Hlt|Hge].
      * rewrite lookup_app_l in Hj by done.
        destruct (Htr j t id Hj Ht) as (i & l0 & ? & ? & ?). exists i, l0.
        split; [done|]. split; [|done]. rewrite lookup_app_l by lia. done.
      * rewrite lookup_app_r in Hj by lia.
        destruct (j - length (chain st))%nat eqn:Hj0; [|destruct n; discriminate].
        cbn in Hj. injection Hj as <-.
        destruct Ht as (tp & ? & ? & ? & Hd & <-). cbn in Hd. injection Hd as <- _ _ _.
        cbn [tp_id]. apply list_elem_of_lookup_1 in Hlbin as [i Hi].
        exists i, lb. split; [apply lookup_lt_Some in Hi; lia|].
        split; [|done]. rewrite lookup_app_l by (now apply lookup_lt_Some in Hi). done.
    + intros b0 id [Hin | Hin]%elem_of_app Hb0; [eauto|].
      apply list_elem_of_singleton in Hin as ->. cbn in Hb0. congruence.
  - intros [= <-]. split; cbn [products chain]; try done.
    intros p' (p & Hin & ->)%Hmap. now apply Hprod.
Qed.

(** Every state of the running component satisfies the invariant. *)
Lemma reachable_ledger_inv `{Host} st : reachable st -> ledger_inv st.
Proof.
  induction 1 as [now rnd es | st st' _ IH Hstep]; [apply ledger_inv_initial|].
  destruct Hstep as [st username password role _ _ _ | st _ | st v _ _
                    | st fs n n' e st' fs' _ _ _ Hid Hup
                    | st p b confirm e st' _ _ _ Hord
                    | st confirm now rnd _ _ | st].
  - apply (ledger_inv_same st); [| |done];
      unfold handleLogin; now destruct (List.find _ seedUsers).
  - now apply (ledger_inv_same st).
  - now apply (ledger_inv_same st).
  - apply farmerUpload_inv in Hup as [-> | (u & a & _ & Ha & _ & Hl)]; [done|].
    eapply ledger_inv_listProduct; [|exact Hl|done]. rewrite Ha, Hid. apply truthy_formId.
  - eapply ledger_inv_orderProduct; eauto.
  - destruct confirm; [|done]. split; cbn [resetBlockchain negb products chain].
    + done.
    + cbn. done.
    + intros p Hp. now apply elem_of_nil in Hp.
    + intros [|j] t id Hj Ht; [|discriminate]. cbn in Hj. injection Hj as <-.
      destruct Ht as (? & ? & ? & ? & ? & _). discriminate.
    + intros b id Hb%list_elem_of_singleton Hid. subst b. discriminate.
  - now apply (ledger_inv_same st).
Qed.

(** What [find] returns on a filtered list: the first element, in the order
    of the list, that passes the filter and the test. *)
Lemma find_filter_first {A} (P : A -> Prop) `{!forall x, Decision (P x)}
    (f : A -> bool) (c : list A) (x : A) :
  List.find f (filter P c) = Some x ->
  exists k : nat, c !! k = Some x /\ P x /\ f x = true
    /\ forall (k' : nat) y, c !! k' = Some y -> P y -> f y = true -> (k <= k')%nat.
Proof.
  induction c as [|a c IH]; [discriminate|]. rewrite filter_cons.
  destruct (decide (P a)) as [HP|HP].
  - cbn [List.find]. destruct (f a) eqn:Hf.
    + intros [= <-]. exists 0%nat. repeat split; try done. intros; lia.
    + intros (k & Hk & ? & ? & Hfirst)%IH. exists (S k). repeat split; try done.
      intros [|k'] y Hy HPy Hfy; [cbn in Hy; congruence|].
      apply le_n_S, (Hfirst k' y); done.
  - intros (k & Hk & ? & ? & Hfirst)%IH. exists (S k). repeat split; try done.
    intros [|k'] y Hy HPy Hfy; [cbn in Hy; congruence|].
    apply le_n_S, (Hfirst k' y); done.
Qed.

Lemma find_none_all {A} (f : A -> bool) (l : list A) x :
  List.find f l = None -> x ∈ l -> f x = false.
Proof. intros Hf Hin%list_elem_of_In. now apply (find_none f l Hf). Qed.

Lemma find_Some_in {A} (f : A -> bool) (l : list A) x :
  x ∈ l -> f x = true -> exists y, List.find f l = Some y.
Proof.
  intros Hin Hf. destruct (List.find f l) as [y|] eqn:Hfind; [eauto|].
  apply list_elem_of_In in Hin. apply (find_none _ _ Hfind) in Hin. congruence.
Qed.

Lemma data_type_transfer b id :
  data_type (data b) = js "TRANSFER" -> data_product_id (data b) = Some id ->
  is_transfer_of id b.
Proof.
  destruct (data b) eqn:Hd; try discriminate. intros _ [= <-].
  do 4 eexists. split; [exact Hd | reflexivity].
Qed.

Lemma record_Some query c r :
  record query c = Some r ->
  truthy query = true
  /\ listing r = List.find (fun b => bool_decide (data_type (data b) = js "LISTING"))
                   (filter (fun b => data_product_id (data b) = Some query) c)
  /\ transfer r = List.find (fun b => bool_decide (data_type (data b) = js "TRANSFER"))
                    (filter (fun b => data_product_id (data b) = Some query) c).
Proof.
  unfold record. destruct (truthy query); cbn [negb]; [|discriminate].
  destruct (filter _ c); [discriminate|]. intros [= <-]. done.
Qed.

(** In a running component the transfer of a trace comes with a listing of
    smaller index. *)
Lemma record_transfer_after_listing `{Host} st query r t :
  reachable st -> record query (chain st) = Some r -> transfer r = Some t ->
  exists l, listing r = Some l /\ (index l < index t)%Z.
Proof.
  intros [Hne Hlink Hprod Htr Hids]%reachable_ledger_inv (Hq & Hl & Ht)%record_Some Htt.
  rewrite Ht in Htt.
  apply find_filter_first in Htt as (j & Hj & Hid & Htype%bool_decide_eq_true & _).
  destruct (Htr j t query Hj (data_type_transfer t query Htype Hid))
    as (i & l' & Hij & Hi & Hl').
  assert (data_type (data l') = js "LISTING") as Hl'type by now destruct Hl' as (? & ? & -> & _).
  pose proof (is_listing_product_id _ _ Hl') as Hl'id.
  destruct (listing r) as [l|] eqn:Hlr.
  - exists l. split; [done|]. symmetry in Hl.
    apply find_filter_first in Hl as (k & Hk & _ & _ & Hfirst).
    assert (k <= i)%nat as Hki by (apply (Hfirst i l'); [done | done | now apply bool_decide_eq_true]).
    rewrite (linked_from_index _ _ _ k l Hlink Hk), (linked_from_index _ _ _ j t Hlink Hj). lia.
  - exfalso. symmetry in Hl.
    assert (l' ∈ filter (fun b => data_product_id (data b) = Some query) (chain st)) as Hin.
    { apply list_elem_of_filter. split; [done|]. eapply list_elem_of_lookup_2, Hi. }
    apply (find_none_all _ _ _ Hl) in Hin. now apply bool_decide_eq_false in Hin.
Qed.

(** The traces after broker1 has ordered AGR-1001: that of AGR-1001 has the
    LISTING block 1 and the TRANSFER block 3; that of AGR-1002 has the
    LISTING block 2 alone. *)
Example record_demo :
  (fun r => (index <$> listing r, index <$> transfer r))
    <$> record (js "AGR-1001") (chain demoSoldState) = Some (Some 1%Z, Some 3%Z)
  /\ (fun r => (index <$> listing r, index <$> transfer r))
       <$> record (js "AGR-1002") (chain demoSoldState) = Some (Some 2%Z, None)
  /\ record (js "AGR-7777") (chain demoSoldState) = None
  /\ record [] (chain demoSoldState) = None.
Proof. repeat split; vm_compute; reflexivity. Qed.

(** ** Orders from the Broker view *)

Lemma sold_map_by_id (ps : list Product) productId b :
  Forall2 (fun q q' => (p_id q = productId /\ q' = sold_to q b)
                       \/ (p_id q <> productId /\ q' = q))
    ps (map (fun p => if bool_decide (p_id p = productId) then sold_to p b else p) ps).
Proof.
  induction ps as [|q ps IH]; cbn [map]; constructor; [|done].
  case_bool_decide; auto.
Qed.

Lemma sold_map_only (ps : list Product) p b :
  (forall q, q ∈ ps -> p_id q = p_id p -> q = p) ->
  Forall2 (fun q q' => (q = p /\ q' = sold_to p b) \/ (q <> p /\ q' = q))
    ps (map (fun q => if bool_decide (p_id q = p_id p) then sold_to q b else q) ps).
Proof.
  induction ps as [|q ps IH]; intros Honly; cbn [map]; constructor.
  - case_bool_decide as Hid.
    + left. assert (q = p) as -> by (apply Honly; [left | done]). done.
    + right. split; [|done]. intros ->. done.
  - apply IH. intros q' Hq'. apply Honly. now right.
Qed.

(** When ids are unique a product is known by its id. *)
Lemma NoDup_ids_eq (ps : list Product) p q :
  NoDup (p_id <$> ps) -> p ∈ ps -> q ∈ ps -> p_id q = p_id p -> q = p.
Proof.
  intros Hnd [i Hi]%list_elem_of_lookup_1 [j Hj]%list_elem_of_lookup_1 Hid.
  assert (i = j) as ->.
  { apply (NoDup_lookup (p_id <$> ps) i j (p_id p)); [done| |];
      rewrite list_lookup_fmap; [rewrite Hi | rewrite Hj]; cbn; congruence. }
  congruence.
Qed.

(** C4 (as amended): in every event of the app a product's status stays as
    it is or goes from LISTED to SOLD, and is never reversed: apart from a
    confirmed reset, which empties the list, the products after the event
    are the products before it, each with its id and with its status kept or
    changed from LISTED to SOLD, preceded by any newly listed (LISTED)
    product.  In the running component the Broker view offers the order only
    on rows whose status is LISTED, and a confirmed order of such a row
    returns without error: it appends one TRANSFER block for the row's id,
    built from a product of that id, marks every product of that id SOLD
    with the ordering broker, whatever its status was, and leaves the
    products of every other id as they are.  When the ids of the products
    are unique this changes the offered LISTED product alone: the block is
    built from it, and every other product, so every SOLD one, stays exactly
    as it is. *)
Theorem status_only_listed_to_sold `{Host} (st st' : AppState) :
  step st st' ->
  ((exists now rnd, st' = resetBlockchain true now rnd st)
   \/ exists fresh kept,
        products st' = fresh ++ kept
        /\ Forall (fun p => p_status p = LISTED) fresh
        /\ Forall2 status_kept (products st) kept)
  /\ (reachable st ->
      forall p b e, p ∈ available (products st) ->
        p_status p = LISTED
        /\ exists st'' prod t,
             orderProduct (p_id p) b true e st = Some st''
             /\ prod ∈ products st /\ p_id prod = p_id p
             /\ chain st'' = chain st ++ [t]
             /\ data t = TRANSFER {| tp_id := p_id p; tp_name := p_name prod;
                                     tp_quantityKg := p_quantityKg prod |}
                           (p_farmer prod) b (p_basePricePerKg prod)
             /\ Forall2 (fun q q' => (p_id q = p_id p /\ q' = sold_to q b)
                                     \/ (p_id q <> p_id p /\ q' = q))
                  (products st) (products st'')
             /\ (NoDup (p_id <$> products st) ->
                 prod = p
                 /\ Forall2 (fun q q' => (q = p /\ q' = sold_to p b) \/ (q <> p /\ q' = q))
                      (products st) (products st''))).
Proof.
  intros Hstep. split.
  - assert (forall ps, products st' = ps -> Forall2 status_kept (products st) ps ->
            exists fresh kept, products st' = fresh ++ kept
              /\ Forall (fun p => p_status p = LISTED) fresh
              /\ Forall2 status_kept (products st) kept) as Hsame.
    { intros ps Hps Hk. exists [], ps. repeat split; [done | constructor | done]. }
    destruct Hstep as [st username password role _ _ _ | st _ | st v _ _
                      | st fs n n' e st' fs' _ _ _ _ Hup
                      | st p b confirm e st' _ _ _ Hord
                      | st confirm now rnd _ _ | st].
    + right. apply (Hsame (products st)); [|apply status_kept_refl].
      unfold handleLogin. now destruct (List.find _ seedUsers).
    + right. apply (Hsame (products st)); [done | apply status_kept_refl].
    + right. apply (Hsame (products st)); [done | apply status_kept_refl].
    + right. apply farmerUpload_inv in Hup as [-> | (u & a & _ & _ & _ & Hl)].
      * apply (Hsame (products st)); [done | apply status_kept_refl].
      * apply listProduct_inv in Hl as (u' & chain' & _ & _ & ->).
        eexists [_], (products st). cbn [products app].
        repeat split; [repeat constructor | apply status_kept_refl].
    + right. apply (Hsame (products st')); [done|]. eapply orderProduct_status, Hord.
    + destruct confirm; [left; eauto|]. right.
      apply (Hsame (products st)); [done | apply status_kept_refl].
    + right. apply (Hsame (products st)); [done | apply status_kept_refl].
  - intros [Hne _ _ _ _]%reachable_ledger_inv p b e Hp.
    pose proof (available_listed _ _ Hp) as Hlisted. split; [exact Hlisted|].
    assert (p ∈ products st) as Hin.
    { unfold available in Hp. now apply list_elem_of_filter in Hp as [_ ?]. }
    destruct (find_Some_in (fun q => bool_decide (p_id q = p_id p)) (products st) p Hin)
      as [prod Hfind]; [now apply bool_decide_eq_true|].
    pose proof (find_id_Some _ _ _ Hfind) as [Hprod Hid].
    destruct (appendBlock_total
                (TRANSFER {| tp_id := p_id prod; tp_name := p_name prod;
                             tp_quantityKg := p_quantityKg prod |}
                          (p_farmer prod) b (p_basePricePerKg prod)) e (chain st) Hne)
      as [c' Happ].
    pose proof Happ as (l & _ & ->)%appendBlock_snoc.
    eexists _, prod, _. unfold orderProduct. cbn [negb]. rewrite Hfind, Happ.
    split; [reflexivity|]. cbn [products chain].
    split; [exact Hprod|]. split; [exact Hid|]. split; [reflexivity|].
    split; [cbn [data set_index makeBlock]; now rewrite Hid|].
    split; [apply sold_map_by_id|].
    intros Hnd. split; [now apply (NoDup_ids_eq (products st))|].
    apply sold_map_only. intros q Hq. now apply (NoDup_ids_eq (products st)).
Qed.

(** C4 at the demo run: broker1's order of AGR-1001 as the event, and what
    that order, offered on the LISTED row of AGR-1001, does. *)
Lemma status_only_listed_to_sold_witness :
  ((exists now rnd, demoSoldState = resetBlockchain true now rnd demoBrokerState)
   \/ exists fresh kept,
        products demoSoldState = fresh ++ kept
        /\ Forall (fun p => p_status p = LISTED) fresh
        /\ Forall2 status_kept (products demoBrokerState) kept)
  /\ p_status demoTomatoes = LISTED
  /\ exists st'' t,
       @orderProduct decimalHost (js "AGR-1001") demoBroker true demoEntropy demoBrokerState
       = Some st''
       /\ chain st'' = chain demoBrokerState ++ [t]
       /\ data t = TRANSFER {| tp_id := js "AGR-1001"; tp_name := js "Organic Tomatoes";
                               tp_quantityKg := Finite (120 # 1) |}
                     (p_farmer demoTomatoes) demoBroker (Finite (28 # 1))
       /\ Forall2 (fun q q' => (q = demoTomatoes /\ q' = sold_to demoTomatoes demoBroker)
                               \/ (q <> demoTomatoes /\ q' = q))
            (products demoBrokerState) (products st'').
Proof.
  assert (@step decimalHost demoBrokerState demoSoldState) as Hstep by demo_broker_order.
  destruct (@status_only_listed_to_sold decimalHost demoBrokerState demoSoldState Hstep)
    as [Hkept Horder].
  split; [exact Hkept|].
  destruct (Horder
              ltac:(apply (@reachable_step decimalHost demoInitial);
                      [apply reachable_init | demo_broker_login])
              demoTomatoes demoBroker demoEntropy
              ltac:(apply list_elem_of_In; vm_compute; left; reflexivity))
    as (Hlisted & st'' & prod & t & Hord & _ & _ & Hchain & Hdata & _ & Hunique).
  split; [exact Hlisted|].
  destruct (Hunique ltac:(apply (bool_decide_unpack _); vm_compute; exact I)) as [-> Hprods].
  exists st'', t. split; [exact Hord|]. split; [exact Hchain|]. split; [exact Hdata|].
  exact Hprods.
Defined.

(** With a duplicated id the view's filter does not shield a SOLD product.
    In the run that goes on after broker1's order, the state in which
    broker1 is logged in again holds the LISTED Okra and the SOLD tomatoes
    under the one id AGR-1001.  The Broker view offers the Okra; the order,
    an event of the component, marks both products SOLD with the new broker
    reference, replacing the broker of the tomatoes, and appends a second
    TRANSFER block for AGR-1001. *)
Example order_rewrites_sold_duplicate :
  @reachable decimalHost demoSoldDuplicateBrokerState
  /\ ((fun p => (p_id p, p_status p, p_broker p)) <$> products demoSoldDuplicateBrokerState)
     = [(js "AGR-1001", LISTED, None); (js "AGR-1001", SOLD, Some demoBroker);
        (js "AGR-1002", LISTED, None)]
  /\ demoOkra ∈ available (products demoSoldDuplicateBrokerState)
  /\ exists st',
       @orderProduct decimalHost (p_id demoOkra) demoOtherBroker true demoEntropy
         demoSoldDuplicateBrokerState = Some st'
       /\ @step decimalHost demoSoldDuplicateBrokerState st'
       /\ ((fun p => (p_id p, p_status p, p_broker p)) <$> products st')
          = [(js "AGR-1001", SOLD, Some demoOtherBroker);
             (js "AGR-1001", SOLD, Some demoOtherBroker);
             (js "AGR-1002", LISTED, None)]
       /\ ((fun b => (index b, data_type (data b), data_product_id (data b)))
             <$> drop 3 (chain st'))
          = [(3%Z, js "TRANSFER", Some (js "AGR-1001"));
             (4%Z, js "LISTING", Some (js "AGR-1001"));
             (5%Z, js "TRANSFER", Some (js "AGR-1001"))].
Proof.
  assert (@step decimalHost demoInitial demoBrokerState) as H1 by demo_broker_login.
  assert (@step decimalHost demoBrokerState demoSoldState) as H2 by demo_broker_order.
  assert (@step decimalHost demoSoldState (logout demoSoldState)) as H3
    by (apply step_logout; discriminate).
  assert (@step decimalHost (logout demoSoldState) demoSoldFarmerState) as H4
    by (apply (@step_login decimalHost (logout demoSoldState)); reflexivity).
  assert (@step decimalHost demoSoldFarmerState demoSoldDuplicateState) as H5.
  { apply (@step_upload decimalHost demoSoldFarmerState
             (mkFarmerState (demoForm "5" "40") noErrors) 1001 1002 demoEntropy
             demoSoldDuplicateState
             (mkFarmerState
                (freshForm (mkUser (js "F-001") (js "farmer1") (js "password1") farmer
                              (js "Ravi Kumar") (Some (js "Narsinghpur"))) 1002)
                noErrors)).
    - reflexivity.
    - eexists. split; reflexivity.
    - lia.
    - reflexivity.
    - vm_compute. reflexivity. }
  assert (@step decimalHost demoSoldDuplicateState (logout demoSoldDuplicateState)) as H6
    by (apply step_logout; discriminate).
  assert (@step decimalHost (logout demoSoldDuplicateState) demoSoldDuplicateBrokerState) as H7
    by (apply (@step_login decimalHost (logout demoSoldDuplicateState)); reflexivity).
  assert (demoOkra ∈ available (products demoSoldDuplicateBrokerState)) as Hokra
    by (apply list_elem_of_In; vm_compute; left; reflexivity).
  split.
  { repeat (eapply reachable_step; [|eassumption]). apply reachable_init. }
  split; [vm_compute; reflexivity|]. split; [exact Hokra|].
  eexists. split; [vm_compute; reflexivity|]. split.
  - eapply (@step_order decimalHost demoSoldDuplicateBrokerState demoOkra demoOtherBroker
              true demoEntropy).
    + reflexivity.
    + eexists. split; reflexivity.
    + exact Hokra.
    + vm_compute. reflexivity.
  - split; vm_compute; reflexivity.
Qed.

(** ** From the running component to its chain *)

Lemma orderProduct_chain `{Host} productId b confirm e st st' :
  orderProduct productId b confirm e st = Some st' ->
  chain st' = chain st \/ exists data, appendBlock data e (chain st) = Some (chain st').
Proof.
  unfold orderProduct. destruct confirm; cbn [negb]; [|intros [= <-]; now left].
  destruct (List.find _ (products st)) as [prod|]; [|intros [= <-]; now left].
  destruct (appendBlock _ e (chain st)) as [chain'|] eqn:Happ; [|discriminate].
  intros [= <-]. right. eauto.
Qed.

(** The chain of a running component is one of the chains of
    [chain_reachable]. *)
Lemma reachable_chain_reachable `{Host} st : reachable st -> chain_reachable (chain st).
Proof.
  induction 1 as [now rnd es | st st' _ IH Hstep]; [apply chain_init|].
  destruct Hstep as [st username password role _ _ _ | st _ | st v _ _
                    | st fs n n' e st' fs' _ _ _ _ Hup
                    | st p b confirm e st' _ _ _ Hord
                    | st confirm now rnd _ _ | st]; try done.
  - unfold handleLogin. now destruct (List.find _ seedUsers).
  - apply farmerUpload_inv in Hup as [-> | (u & a & _ & _ & _ & Hl)]; [done|].
    apply listProduct_inv in Hl as (u' & chain' & _ & Happ & ->).
    eapply chain_append; eauto.
  - apply orderProduct_chain in Hord as [-> | [data Happ]]; [done|].
    eapply chain_append; eauto.
  - destruct confirm; [|done]. eapply chain_reset, IH.
Qed.

(** In a running component [appendBlock], [listProduct] (with a user logged
    in) and [orderProduct] always return: the chain is never empty. *)
Lemma reachable_calls_return `{Host} st :
  reachable st ->
  (forall data e, is_Some (appendBlock data e (chain st)))
  /\ (forall a e, is_Some (user st) -> is_Some (listProduct a e st))
  /\ (forall productId b confirm e, is_Some (orderProduct productId b confirm e st)).
Proof.
  intros [Hne _ _ _ _]%reachable_ledger_inv.
  assert (forall data e, is_Some (appendBlock data e (chain st))) as Happ.
  { intros data e. destruct (appendBlock_total data e (chain st) Hne) as [c' ->]. eauto. }
  split; [done|]. split.
  - intros a e [u Hu]. unfold listProduct. rewrite Hu.
    destruct (Happ (LISTING
                 (mkProduct (l_id a) (l_name a) (Number (l_quantityKg a))
                    (Number (l_basePricePerKg a))
                    (with_actor_id (l_farmer a) (u_id u)) LISTED None None)
                 (with_actor_id (l_farmer a) (u_id u))) e) as [c' ->]. eauto.
  - intros productId b confirm e. unfold orderProduct.
    destruct confirm; cbn [negb]; [|eauto].
    destruct (List.find _ (products st)) as [prod|]; [|eauto].
    destruct (Happ (TRANSFER {| tp_id := p_id prod; tp_name := p_name prod;
                                 tp_quantityKg := p_quantityKg prod |}
                             (p_farmer prod) b (p_basePricePerKg prod)) e) as [c' ->]. eauto.
Qed.

(** [reachable_calls_return] at the demo run with broker1 logged in. *)
Lemma reachable_calls_return_witness :
  (forall data e, is_Some (@appendBlock decimalHost data e (chain demoBrokerState)))
  /\ (forall a e, is_Some (user demoBrokerState) ->
        is_Some (@listProduct decimalHost a e demoBrokerState))
  /\ (forall productId b confirm e,
        is_Some (@orderProduct decimalHost productId b confirm e demoBrokerState)).
Proof.
  apply (@reachable_calls_return decimalHost demoBrokerState).
  apply (@reachable_step decimalHost demoInitial); [apply reachable_init | demo_broker_login].
Defined.

(** ** Further properties of the code *)

(** The shape of a hash: between 8 and 16 characters, the first eight being
    the printed checksum of the input, whatever the random draw. *)
Theorem pseudoHash_shape (input rnd : jsstring) :
  (8 <= length (pseudoHash input rnd) <= 16)%nat
  /\ take 8 (pseudoHash input rnd) = checksumPart input
  /\ drop 8 (pseudoHash input rnd) = toUpperCase (slice 2 10 rnd).
Proof.
  split; [|split; [apply take_8_pseudoHash | apply drop_8_pseudoHash]].
  rewrite pseudoHash_parts, length_app, length_checksumPart.
  pose proof (length_randomPart rnd). lia.
Qed.

(** A text that [Number] sends to [NaN] passes [validateForm], every
    comparison with [NaN] being false: the Farmer form lists a product whose
    quantity is not a number.  The upload returns, puts the LISTED product
    first in [products], and appends to the chain, which it otherwise keeps,
    one LISTING block that carries that product. *)
Theorem farmerUpload_accepts_not_a_number `{Host}
    (n : Z) (e : Entropy) (st : AppState) (fs : FarmerState) (u : User) :
  user st = Some u -> chain st <> [] ->
  truthy (f_name (form fs)) = true ->
  truthy (f_quantityKg (form fs)) = true ->
  Number (f_quantityKg (form fs)) = NaN ->
  truthy (f_basePricePerKg (form fs)) = true ->
  number_le_zero (Number (f_basePricePerKg (form fs))) = false ->
  exists st' fs' newProd b,
    farmerUpload n e st fs = Some (st', fs')
    /\ products st' = newProd :: products st
    /\ p_id newProd = f_id (form fs)
    /\ p_quantityKg newProd = NaN
    /\ p_status newProd = LISTED
    /\ chain st' = chain st ++ [b]
    /\ data b = LISTING newProd (p_farmer newProd)
    /\ data_type (data b) = js "LISTING"
    /\ length (chain st') = S (length (chain st)).
Proof.
  intros Hu Hne Hname Hq Hnan Hp Hpos.
  unfold farmerUpload, uploadDisabled, validateForm.
  rewrite Hname, Hq, Hp, Hnan, Hpos. cbn [negb orb number_le_zero err_name
    err_quantityKg err_basePricePerKg]. rewrite Hu.
  match goal with |- context [listProduct ?a e st] => set (arg := a) end.
  destruct (listProduct_returns arg e st u Hu Hne) as (st' & Hl & _ & _).
  rewrite Hl.
  apply listProduct_inv in Hl as (u' & chain' & Hu' & Happ & ->).
  rewrite Hu in Hu'. injection Hu' as <-.
  apply appendBlock_snoc in Happ as (l & _ & ->).
  do 4 eexists. split; [reflexivity|]. cbn [products chain].
  split; [reflexivity|]. split; [reflexivity|]. split; [cbn; exact Hnan|].
  split; [reflexivity|]. split; [reflexivity|]. split; [reflexivity|].
  split; [reflexivity|]. rewrite length_app. cbn. lia.
Qed.

(** The same at the demo run: farmer1 types [abc] as the quantity. *)
Lemma farmerUpload_accepts_not_a_number_witness :
  exists st' fs' newProd b,
    @farmerUpload decimalHost 2000 demoEntropy demoFarmerState
      (mkFarmerState (demoForm "abc" "40") noErrors) = Some (st', fs')
    /\ products st' = newProd :: products demoFarmerState
    /\ p_id newProd = js "AGR-1001"
    /\ p_quantityKg newProd = NaN
    /\ p_status newProd = LISTED
    /\ chain st' = chain demoFarmerState ++ [b]
    /\ data b = LISTING newProd (p_farmer newProd)
    /\ data_type (data b) = js "LISTING"
    /\ length (chain st') = S (length (chain demoFarmerState)).
Proof.
  apply (@farmerUpload_accepts_not_a_number decimalHost 2000 demoEntropy demoFarmerState
           (mkFarmerState (demoForm "abc" "40") noErrors)
           (mkUser (js "F-001") (js "farmer1") (js "password1") farmer (js "Ravi Kumar")
              (Some (js "Narsinghpur"))));
    first [reflexivity | discriminate].
Defined.

(** ** What an event does to the products and the chain *)

(** The four things an event can do: leave [products] and [chain] as they
    are; list one product (put it first and append its LISTING block); order
    a product id (mark the products of that id SOLD and append the TRANSFER
    block of the first of them); or reset. *)
Lemma step_cases `{Host} st st' :
  step st st' ->
  (products st' = products st /\ chain st' = chain st)
  \/ (exists u newProd b,
        user st = Some u /\ u_role u = farmer
        /\ truthy (p_id newProd) = true /\ p_status newProd = LISTED
        /\ actor_id (p_farmer newProd) = u_id u
        /\ products st' = newProd :: products st
        /\ chain st' = chain st ++ [b]
        /\ data b = LISTING newProd (p_farmer newProd))
  \/ (exists productId br prod b,
        prod ∈ products st /\ p_id prod = productId
        /\ products st'
           = map (fun p => if bool_decide (p_id p = productId) then sold_to p br else p)
               (products st)
        /\ chain st' = chain st ++ [b]
        /\ data b = TRANSFER {| tp_id := p_id prod; tp_name := p_name prod;
                                tp_quantityKg := p_quantityKg prod |}
                      (p_farmer prod) br (p_basePricePerKg prod))
  \/ (exists now rnd, st' = resetBlockchain true now rnd st).
Proof.
  intros Hstep.
  destruct Hstep as [st username password role _ _ _ | st _ | st v _ _
                    | st fs n n' e st' fs' _ Hrole _ Hid Hup
                    | st p br confirm e st' _ _ _ Hord
                    | st confirm now rnd _ _ | st]; try (left; done).
  - left. unfold handleLogin. now destruct (List.find _ seedUsers).
  - apply farmerUpload_inv in Hup as [-> | (u & a & Hu & Ha & Hfa & Hl)]; [left; done|].
    right; left. destruct Hrole as (u' & Hu' & Hr). rewrite Hu in Hu'. injection Hu' as <-.
    apply listProduct_inv in Hl as (u' & chain' & Hu' & Happ & ->).
    rewrite Hu in Hu'. injection Hu' as <-.
    apply appendBlock_snoc in Happ as (l & _ & ->).
    do 3 eexists. split; [done|]. split; [done|].
    split; [|split; [|split; [|split; [reflexivity | split; reflexivity]]]].
    + cbn [p_id]. rewrite Ha, Hid. apply truthy_formId.
    + reflexivity.
    + reflexivity.
  - revert Hord. unfold orderProduct. destruct confirm; cbn [negb]; [|intros [= <-]; left; done].
    destruct (List.find _ (products st)) as [prod|] eqn:Hfind.
    + destruct (appendBlock _ e (chain st)) as [chain'|] eqn:Happ; [|discriminate].
      intros [= <-]. apply find_id_Some in Hfind as [Hin Hpid].
      apply appendBlock_snoc in Happ as (l & _ & ->).
      right; right; left. exists (p_id p), br, prod. eexists.
      split; [done|]. split; [done|]. split; [reflexivity|]. split; reflexivity.
    + intros [= <-]. left. cbn [products chain]. split; [|done].
      apply map_sold_unknown. intros q Hq Hqid.
      apply list_elem_of_In in Hq. apply (find_none _ _ Hfind) in Hq.
      now apply bool_decide_eq_false in Hq.
  - destruct confirm; [right; right; right; eauto | left; done].
Qed.

(** What an event does to [view] and [user]: only login, logout and
    navigation touch them. *)
Lemma step_session `{Host} st st' :
  step st st' ->
  (view st' = view st /\ user st' = user st)
  \/ (view st = view_login /\ user st' = user st /\ view st' = view st)
  \/ (view st = view_login
      /\ exists u, u ∈ seedUsers /\ user st' = Some u /\ view st' = view_role (u_role u))
  \/ (view st' = view_login /\ user st' = None)
  \/ (view st <> view_login /\ user st' = user st
      /\ (view st' = view_landing \/ view st' = view_explorer
          \/ exists r, view st' = view_role r /\ has_role r st)).
Proof.
  intros Hstep.
  destruct Hstep as [st username password role Hv _ _ | st _ | st v Hv Hto
                    | st fs n n' e st' fs' _ _ _ _ Hup
                    | st p br confirm e st' _ _ _ Hord
                    | st confirm now rnd _ _ | st]; try (left; done).
  - unfold handleLogin. destruct (List.find _ seedUsers) as [u|] eqn:Hfind.
    + right; right; left. split; [done|]. exists u. apply find_some in Hfind as [Hin _].
      split; [now apply list_elem_of_In|]. done.
    + left. done.
  - right; right; right; left. done.
  - right; right; right; right. split; [done|]. split; [done|].
    destruct Hto as [-> | [-> | (r & -> & Hr)]]; eauto.
  - left. apply farmerUpload_inv in Hup as [-> | (u & a & _ & _ & _ & Hl)]; [done|].
    apply listProduct_inv in Hl as (? & ? & _ & _ & ->). done.
  - left. revert Hord. unfold orderProduct. destruct confirm; cbn [negb]; [|now intros [= <-]].
    destruct (List.find _ (products st)).
    + destruct (appendBlock _ e (chain st)); [|discriminate]. now intros [= <-].
    + now intros [= <-].
  - left. now destruct confirm.
Qed.

(** ** The checksum of [pseudoHash] *)

(** The checksum of a concatenation, from the checksums of the parts: the
    loop is a polynomial in 31 modulo [2^32]. *)
Lemma pseudoHash_h_app a b :
  pseudoHash_h (a ++ b)
  = ((pseudoHash_h a * 31 ^ Z.of_nat (length b) + pseudoHash_h b) mod 2 ^ 32)%Z.
Proof.
  induction b as [|c b IH] using rev_ind.
  - rewrite app_nil_r. cbn [length]. change (pseudoHash_h []) with 0%Z.
    rewrite Z.pow_0_r, Z.mul_1_r, Z.add_0_r.
    symmetry. apply Z.mod_small, pseudoHash_h_range.
  - rewrite app_assoc, !pseudoHash_h_step, IH.
    rewrite length_app, Nat2Z.inj_add. cbn [length].
    rewrite Z.pow_add_r by lia. change (31 ^ Z.of_nat 1)%Z with 31%Z.
    rewrite <- (Z.add_mod_idemp_l (_ mod _ * 31)) by lia.
    rewrite Z.mul_mod_idemp_l by lia. rewrite Z.add_mod_idemp_l by lia.
    rewrite Z.add_mod_idemp_r by lia. f_equal. ring.
Qed.

(** Inside any input, a piece can be replaced by another piece of the same
    length and the same checksum without changing the hash: the hash does
    not tell the two inputs apart. *)
Theorem pseudoHash_blind_to_substitution (s1 x y s2 rnd : jsstring) :
  length x = length y -> pseudoHash_h x = pseudoHash_h y ->
  pseudoHash (s1 ++ x ++ s2) rnd = pseudoHash (s1 ++ y ++ s2) rnd.
Proof.
  intros Hlen Hh. rewrite !pseudoHash_parts. f_equal. unfold checksumPart.
  do 3 f_equal.
  rewrite (pseudoHash_h_app s1), (pseudoHash_h_app x).
  rewrite (pseudoHash_h_app s1 (y ++ s2)), (pseudoHash_h_app y).
  rewrite !length_app, Hlen, Hh. reflexivity.
Qed.

(** The same for the pieces [Aa] and [BB] inside a hashed text. *)
Lemma pseudoHash_blind_to_substitution_witness :
  pseudoHash (js "0xGENESIS{name:" ++ js "Aa" ++ js "}") demoDraw
  = pseudoHash (js "0xGENESIS{name:" ++ js "BB" ++ js "}") demoDraw.
Proof.
  apply (pseudoHash_blind_to_substitution (js "0xGENESIS{name:") (js "Aa") (js "BB") (js "}")
           demoDraw); reflexivity.
Defined.

(** ** [classNames] *)

Lemma join_nil_iff sep (l : list jsstring) :
  Forall (fun s => truthy s = true) l -> (join sep l = [] <-> l = []).
Proof.
  intros Hl. split; [|now intros ->].
  destruct Hl as [|s l Hs Hl]; [done|]. destruct s; [discriminate|].
  destruct l; discriminate.
Qed.

Lemma join_app sep (l1 l2 : list jsstring) :
  l1 <> [] -> l2 <> [] -> join sep (l1 ++ l2) = join sep l1 ++ sep ++ join sep l2.
Proof.
  intros H1 H2. induction l1 as [|x l1 IH]; [done|].
  destruct l1 as [|y l1].
  - cbn [app join]. destruct l2; [done | reflexivity].
  - change (join sep ((x :: y :: l1) ++ l2)) with (x ++ sep ++ join sep ((y :: l1) ++ l2)).
    rewrite IH by done. cbn [join]. now rewrite <- !app_assoc.
Qed.

Lemma omap_truthyArg_truthy c : Forall (fun s => truthy s = true) (omap truthyArg c).
Proof.
  induction c as [|x c IH]; cbn [omap list_omap]; [constructor|].
  destruct x as [s|]; cbn [truthyArg]; [|exact IH].
  destruct (truthy s) eqn:Hs; [constructor; done | exact IH].
Qed.

Lemma truthy_nil_iff (s : jsstring) : truthy s = false <-> s = [].
Proof. destruct s; cbn; split; congruence. Qed.

(** [classNames] joins the truthy arguments with single spaces: the result
    is empty exactly when no argument is truthy, and the class string of two
    argument lists put together is the two class strings with one space
    between them, or just the one that is not empty. *)
Theorem classNames_app (c1 c2 : list (option jsstring)) :
  (classNames c1 = [] <-> Forall (fun x => truthyArg x = None) c1)
  /\ classNames (c1 ++ c2)
     = if truthy (classNames c1) && truthy (classNames c2)
       then classNames c1 ++ js " " ++ classNames c2
       else classNames c1 ++ classNames c2.
Proof.
  unfold classNames. split.
  - rewrite join_nil_iff by apply omap_truthyArg_truthy.
    induction c1 as [|x c1 IH]; cbn [omap list_omap]; [split; [constructor | done]|].
    destruct (truthyArg x) eqn:Hx.
    + split; [discriminate|]. intros HF. inversion HF; congruence.
    + rewrite IH. split; [now constructor | intros HF; now inversion HF].
  - rewrite omap_app.
    destruct (truthy (join (js " ") (omap truthyArg c1))) eqn:H1.
    + destruct (truthy (join (js " ") (omap truthyArg c2))) eqn:H2; cbn [andb].
      * apply join_app; intros E; rewrite E in *; discriminate.
      * apply truthy_nil_iff in H2. rewrite H2.
        apply join_nil_iff in H2 as ->; [|apply omap_truthyArg_truthy].
        now rewrite !app_nil_r.
    + cbn [andb]. apply truthy_nil_iff in H1. rewrite H1.
      apply join_nil_iff in H1 as ->; [|apply omap_truthyArg_truthy]. reflexivity.
Qed.

Example classNames_demo :
  classNames [Some (js "text-right"); None; Some []; Some (js "font-mono")]
  = js "text-right font-mono".
Proof. reflexivity. Qed.

(** ** Login and the views *)

(** [handleLogin] never touches [products] or [chain].  It logs in exactly
    when a seed user has the given username, password and role: then [user]
    is that user and [view] the role's view; otherwise [user] and [view]
    stay and an error toast is shown. *)
Theorem handleLogin_outcome (username password : jsstring) (role : Role) (st : AppState) :
  let st' := handleLogin username password role st in
  products st' = products st /\ chain st' = chain st
  /\ ((exists u, u ∈ seedUsers /\ u_username u = username /\ u_password u = password
                 /\ u_role u = role
                 /\ user st' = Some u /\ view st' = view_role role
                 /\ error_surfaced st' = false)
      \/ ((forall u, u ∈ seedUsers ->
             ~ (u_username u = username /\ u_password u = password /\ u_role u = role))
          /\ user st' = user st /\ view st' = view st
          /\ error_surfaced st' = true)).
Proof.
  cbv zeta. unfold handleLogin.
  destruct (List.find _ seedUsers) as [u|] eqn:Hfind; cbn [products chain user view].
  - split; [done|]. split; [done|]. left. apply find_some in Hfind as [Hin Hmatch].
    apply andb_prop in Hmatch as [Hmatch Hr]. apply andb_prop in Hmatch as [Hn Hp].
    apply bool_decide_eq_true in Hn, Hp, Hr. exists u.
    split; [now apply list_elem_of_In|]. rewrite Hr. done.
  - split; [done|]. split; [done|]. right. split; [|done].
    intros u Hin%list_elem_of_In (Hn & Hp & Hr).
    apply (find_none _ _ Hfind) in Hin.
    rewrite !bool_decide_eq_true_2 in Hin by done. discriminate.
Qed.

(** The session invariant of the running component. *)
Lemma session_inv `{Host} (st : AppState) :
  reachable st ->
  (view st = view_login <-> user st = None)
  /\ (forall r, view st = view_role r -> has_role r st)
  /\ (forall u, user st = Some u -> u ∈ seedUsers).
Proof.
  induction 1 as [now rnd es | st st' _ (IHv & IHr & IHu) Hstep].
  - split; [done|]. split; [discriminate | discriminate].
  - unfold has_role in *.
    destruct (step_session st st' Hstep)
      as [[Hv Hu] | [(_ & Hu & Hv) | [(_ & u & Hin & Hu & Hv) | [[Hv Hu] | (Hne & Hu & Hv)]]]].
    + rewrite Hv, Hu. done.
    + rewrite Hv, Hu. done.
    + rewrite Hv, Hu. split; [split; discriminate|]. split.
      * intros r [= <-]. eauto.
      * intros u' [= <-]. done.
    + rewrite Hv, Hu. split; [done|]. split; discriminate.
    + rewrite Hu. assert (user st <> None) as Hsome by (intros E; apply Hne, IHv, E).
      split; [|split; [|done]].
      * split; [|done]. destruct Hv as [Hv | [Hv | (r & Hv & _)]]; rewrite Hv; discriminate.
      * intros r Hr. destruct Hv as [Hv | [Hv | (r' & Hv & Hrole)]]; rewrite Hv in Hr;
          try discriminate. now injection Hr as <-.
Qed.

(** In every state of the running component: the login view is shown
    exactly when nobody is logged in; a role's view (farmer, broker,
    consumer, admin) is shown only to a logged-in user of that role, so the
    "Access denied" branches are never rendered; and the logged-in user is
    one of [seedUsers]. *)
Theorem reachable_session `{Host} (st : AppState) :
  reachable st ->
  (view st = view_login <-> user st = None)
  /\ (forall r, view st = view_role r -> has_role r st)
  /\ (forall u, user st = Some u -> u ∈ seedUsers).
Proof. apply session_inv. Qed.

(** [reachable_session] at the demo run with broker1 logged in. *)
Lemma reachable_session_witness :
  (view demoBrokerState = view_login <-> user demoBrokerState = None)
  /\ (forall r, view demoBrokerState = view_role r -> has_role r demoBrokerState)
  /\ (forall u, user demoBrokerState = Some u -> u ∈ seedUsers).
Proof.
  apply (@reachable_session decimalHost demoBrokerState).
  apply (@reachable_step decimalHost demoInitial); [apply reachable_init | demo_broker_login].
Defined.

(** ** The chain only grows *)

(** Every event other than a confirmed reset keeps the chain it finds as a
    prefix of the chain it leaves, and appends at most one block: no block
    is ever changed or removed. *)
Theorem step_chain_append_only `{Host} (st st' : AppState) :
  step st st' ->
  (exists now rnd, st' = resetBlockchain true now rnd st)
  \/ (chain st `prefix_of` chain st'
      /\ (length (chain st') <= S (length (chain st)))%nat).
Proof.
  intros [[_ ->] | [(u & newProd & b & _ & _ & _ & _ & _ & _ & -> & _)
                   | [(productId & br & prod & b & _ & _ & _ & -> & _) | Hreset]]]%step_cases.
  - right. split; [done | lia].
  - right. split; [now exists [b]|]. rewrite length_app. cbn. lia.
  - right. split; [now exists [b]|]. rewrite length_app. cbn. lia.
  - now left.
Qed.

(** [step_chain_append_only] at the demo run: broker1 orders AGR-1001. *)
Lemma step_chain_append_only_witness :
  (exists now rnd, demoSoldState = resetBlockchain true now rnd demoBrokerState)
  \/ (chain demoBrokerState `prefix_of` chain demoSoldState
      /\ (length (chain demoSoldState) <= S (length (chain demoBrokerState)))%nat).
Proof.
  apply (@step_chain_append_only decimalHost demoBrokerState demoSoldState).
  demo_broker_order.
Defined.

(** ** The seeded state *)

(** Each seed product ends up with its own block's hash as [_hashTemp], and
    its block carries the product with that property and the product's
    farmer as actor. *)
Lemma seedBlocks_shape `{Host} genesisHash es arr : forall i before,
  Forall2 (fun p bp =>
             snd bp = set_hashTemp p (hash (fst bp))
             /\ data (fst bp) = LISTING (snd bp) (p_farmer p))
    arr (seedBlocks genesisHash es i before arr).
Proof.
  induction arr as [|p arr IH]; intros i before; cbn [seedBlocks]; constructor; [|apply IH].
  cbn [fst snd hash data]. split; reflexivity.
Qed.

Lemma seedBlocks_lookup `{Host} genesisHash es arr : forall i before (k : nat) bp,
  seedBlocks genesisHash es i before arr !! k = Some bp ->
  exists p, arr !! k = Some p
    /\ snd bp = set_hashTemp p (hash (fst bp))
    /\ data (fst bp) = LISTING (snd bp) (p_farmer p)
    /\ hash (fst bp) = computeHash (prevHash (fst bp)) (LISTING p (p_farmer p))
                         (hashInstant (es (i + k)%nat)) (randomDraw (es (i + k)%nat))
    /\ timestamp (fst bp) = stampInstant (es (i + k)%nat).
Proof.
  induction arr as [|p arr IH]; intros i before k bp Hk; [discriminate|].
  destruct k as [|k].
  - cbn [seedBlocks] in Hk. injection Hk as <-. exists p. rewrite Nat.add_0_r.
    cbn [fst snd hash data prevHash timestamp set_index makeBlock].
    repeat split.
  - change (seedBlocks genesisHash es (S i)
              (Some (set_hashTemp p
                 (hash (set_index
                    (makeBlock
                       match i with
                       | O => genesisHash
                       | S _ => or_else (before ≫= p_hashTemp) genesisHash
                       end (LISTING p (p_farmer p)) (es i)) (Z.of_nat i + 1)))))
              arr !! k = Some bp) in Hk.
    apply IH in Hk as (q & Hq & Hrest). exists q. split; [exact Hq|].
    replace (i + S k)%nat with (S i + k)%nat by lia. exact Hrest.
Qed.

(** In the state after the first render every product is a seed product
    that has gained the property [_hashTemp], the hash of the seed's own
    block; that block, at the next index, stores the product with
    [_hashTemp], although its hash was computed from the product without
    it: the stored payload of a seed block is not the payload that was
    hashed. *)
Theorem initialState_seed_blocks `{Host} (now rnd : jsstring) (es : nat -> Entropy)
    (i : nat) (p : Product) :
  products (initialState now rnd es) !! i = Some p ->
  exists seed b,
    seedProducts !! i = Some seed
    /\ chain (initialState now rnd es) !! S i = Some b
    /\ p = set_hashTemp seed (hash b)
    /\ data b = LISTING p (p_farmer seed)
    /\ hash b = computeHash (prevHash b) (LISTING seed (p_farmer seed))
                  (hashInstant (es i)) (randomDraw (es i)).
Proof.
  unfold initialState. cbn [products chain].
  set (seeded := seedBlocks _ es 0 None seedProducts).
  intros Hp. rewrite list_lookup_fmap in Hp.
  destruct (seeded !! i) as [bp|] eqn:Hbp; [|discriminate]. injection Hp as <-.
  pose proof (seedBlocks_lookup _ es seedProducts 0 None i bp Hbp)
    as (seed & Hseed & Hsnd & Hdata & Hhash & _).
  exists seed, (fst bp). split; [exact Hseed|]. split.
  - change ((fst <$> seeded) !! i = Some (fst bp)). now rewrite list_lookup_fmap, Hbp.
  - split; [exact Hsnd|]. split; [exact Hdata | exact Hhash].
Qed.

(** [initialState_seed_blocks] at the first product of the demo run. *)
Lemma initialState_seed_blocks_witness :
  exists seed b,
    seedProducts !! 0%nat = Some seed
    /\ chain demoInitial !! 1%nat = Some b
    /\ set_hashTemp
         (mkProduct (js "AGR-1001") (js "Organic Tomatoes") (Finite (120 # 1))
            (Finite (28 # 1)) (mkActor (js "F-001") (js "Ravi Kumar") (js "Narsinghpur"))
            LISTED None None) (js "EA7603918F3A91C2")
       = set_hashTemp seed (hash b)
    /\ data b = LISTING
         (set_hashTemp
            (mkProduct (js "AGR-1001") (js "Organic Tomatoes") (Finite (120 # 1))
               (Finite (28 # 1)) (mkActor (js "F-001") (js "Ravi Kumar") (js "Narsinghpur"))
               LISTED None None) (js "EA7603918F3A91C2"))
         (p_farmer seed)
    /\ hash b = @computeHash decimalHost (prevHash b) (LISTING seed (p_farmer seed))
                  (hashInstant demoEntropy) (randomDraw demoEntropy).
Proof.
  apply (@initialState_seed_blocks decimalHost demoInstant demoDraw (fun _ => demoEntropy)
           0%nat).
  vm_compute. reflexivity.
Defined.

(** ** Counting products and blocks *)

Lemma blocksOfType_snoc type c b :
  blocksOfType type (c ++ [b])
  = blocksOfType type c ++ (if bool_decide (data_type (data b) = js type) then [b] else []).
Proof.
  unfold blocksOfType. rewrite List.filter_app. cbn [List.filter].
  now destruct (bool_decide _).
Qed.

Lemma seeded_blocks_listing (arr : list Product) (seeded : list (Block * Product)) :
  Forall2 (fun p bp => snd bp = set_hashTemp p (hash (fst bp))
                       /\ data (fst bp) = LISTING (snd bp) (p_farmer p)) arr seeded ->
  (forall b, b ∈ (fst <$> seeded) ->
     exists p p', p ∈ arr /\ data b = LISTING p' (p_farmer p))
  /\ (forall p', p' ∈ (snd <$> seeded) -> exists p h, p ∈ arr /\ p' = set_hashTemp p h)
  /\ length seeded = length arr.
Proof.
  induction 1 as [|p bp arr seeded [Hsnd Hdata] _ (IHb & IHp & IHl)].
  - repeat split; intros ? Hin; cbn in Hin; now apply elem_of_nil in Hin.
  - rewrite !fmap_cons. split; [|split].
    + intros b [-> | Hin]%elem_of_cons.
      * exists p, (snd bp). split; [left | done].
      * destruct (IHb b Hin) as (q & q' & ? & ?). exists q, q'. split; [now right | done].
    + intros p' [-> | Hin]%elem_of_cons.
      * exists p, (hash (fst bp)). split; [left | done].
      * destruct (IHp p' Hin) as (q & h & ? & ?). exists q, h. split; [now right | done].
    + cbn [length]. now rewrite IHl.
Qed.

Lemma blocksOfType_all_listing (l : list Block) :
  (forall b, b ∈ l -> exists p a, data b = LISTING p a) ->
  blocksOfType "LISTING" l = l /\ blocksOfType "TRANSFER" l = [].
Proof.
  induction l as [|b l IH]; intros Hl; [done|].
  destruct (Hl b) as (p & a & Hd); [left|].
  destruct IH as [IH1 IH2]; [intros; apply Hl; now right|].
  unfold blocksOfType in *. cbn [List.filter]. rewrite Hd. cbn [data_type].
  rewrite bool_decide_eq_true_2 by reflexivity.
  rewrite bool_decide_eq_false_2 by js_discriminate. now rewrite IH1, IH2.
Qed.

Lemma length_sold_available (ps : list Product) :
  length ps
  = (length (List.filter (fun p => bool_decide (p_status p = SOLD)) ps)
     + length (available ps))%nat.
Proof.
  unfold available. induction ps as [|p ps IH]; [reflexivity|].
  cbn [List.filter]. rewrite filter_cons. destruct (p_status p) eqn:Hp.
  - rewrite bool_decide_eq_false_2 by discriminate.
    destruct (decide (LISTED = LISTED)); [|done]. cbn [length]. lia.
  - rewrite bool_decide_eq_true_2 by reflexivity.
    destruct (decide (SOLD = LISTED)); [discriminate|]. cbn [length]. lia.
Qed.

(** The counts that tie [products] to [chain] in the running component. *)
Lemma counts_inv `{Host} st :
  reachable st ->
  length (products st) = length (blocksOfType "LISTING" (chain st))
  /\ length (chain st)
     = S (length (blocksOfType "LISTING" (chain st))
          + length (blocksOfType "TRANSFER" (chain st))).
Proof.
  induction 1 as [now rnd es | st st' _ [IH1 IH2] Hstep].
  - pose proof (seedBlocks_shape (hash (genesisBlock now rnd)) es seedProducts 0 None) as HF.
    apply seeded_blocks_listing in HF as (Hb & _ & Hlen).
    unfold initialState. cbn [chain products].
    set (seeded := seedBlocks _ es 0 None seedProducts) in *. clearbody seeded.
    destruct (blocksOfType_all_listing (fst <$> seeded)) as [HL HT].
    { intros b Hin. destruct (Hb b Hin) as (p & p' & _ & Hd). eauto. }
    unfold blocksOfType in *. cbn [List.filter genesisBlock data data_type].
    rewrite !bool_decide_eq_false_2 by js_discriminate.
    rewrite HL, HT. cbn [length]. rewrite !length_fmap. lia.
  - apply step_cases in Hstep
      as [[-> ->] | [(u & newProd & b & _ & _ & _ & _ & _ & -> & -> & Hd)
                    | [(productId & br & prod & b & _ & _ & -> & -> & Hd)
                      | (now & rnd & ->)]]].
    + done.
    + rewrite !blocksOfType_snoc, Hd. cbn [data_type].
      rewrite bool_decide_eq_true_2 by reflexivity.
      rewrite bool_decide_eq_false_2 by js_discriminate.
      rewrite !length_app. cbn [length]. lia.
    + rewrite !blocksOfType_snoc, Hd. cbn [data_type].
      rewrite (bool_decide_eq_true_2 (js "TRANSFER" = js "TRANSFER")) by reflexivity.
      rewrite (bool_decide_eq_false_2 (js "TRANSFER" = js "LISTING")) by js_discriminate.
      rewrite length_map, !length_app. cbn [length]. lia.
    + cbn. done.
Qed.

(** The KPI cards and the chain agree in the running component: Products
    ([stats.total]) is the number of LISTING blocks, Listed is the number of
    products the Broker view offers, Products is Sold plus Listed, and the
    chain has one block more than the Products and the TRANSFER blocks
    together. *)
Theorem stats_match_chain `{Host} (st : AppState) :
  reachable st ->
  let s := stats (products st) in
  stats_total s = Z.of_nat (length (blocksOfType "LISTING" (chain st)))
  /\ stats_listed s = Z.of_nat (length (available (products st)))
  /\ stats_total s = (stats_sold s + stats_listed s)%Z
  /\ (0 <= stats_sold s <= stats_total s)%Z
  /\ Z.of_nat (length (chain st))
     = (1 + stats_total s + Z.of_nat (length (blocksOfType "TRANSFER" (chain st))))%Z.
Proof.
  intros [H1 H2]%counts_inv. cbv zeta.
  unfold stats. cbn [stats_total stats_sold stats_listed].
  pose proof (length_sold_available (products st)) as Hsplit.
  repeat split; lia.
Qed.

(** [stats_match_chain] at the demo run after broker1's order. *)
Lemma stats_match_chain_witness :
  let s := stats (products demoSoldState) in
  stats_total s = Z.of_nat (length (blocksOfType "LISTING" (chain demoSoldState)))
  /\ stats_listed s = Z.of_nat (length (available (products demoSoldState)))
  /\ stats_total s = (stats_sold s + stats_listed s)%Z
  /\ (0 <= stats_sold s <= stats_total s)%Z
  /\ Z.of_nat (length (chain demoSoldState))
     = (1 + stats_total s
        + Z.of_nat (length (blocksOfType "TRANSFER" (chain demoSoldState))))%Z.
Proof.
  apply (@stats_match_chain decimalHost demoSoldState).
  apply (@reachable_step decimalHost demoBrokerState); [|demo_broker_order].
  apply (@reachable_step decimalHost demoInitial); [apply reachable_init | demo_broker_login].
Defined.

Example stats_demo :
  stats (products demoSoldState) = {| stats_total := 2; stats_sold := 1; stats_listed := 1 |}.
Proof. reflexivity. Qed.

(** ** Every product can be traced *)

Lemma elem_of_sold_map (ps : list Product) productId br p' :
  p' ∈ map (fun p => if bool_decide (p_id p = productId) then sold_to p br else p) ps ->
  exists p, p ∈ ps
    /\ ((p_id p = productId /\ p' = sold_to p br) \/ (p_id p <> productId /\ p' = p)).
Proof.
  intros Hin. apply list_elem_of_In, in_map_iff in Hin as (p & <- & Hin).
  exists p. split; [now apply list_elem_of_In|]. case_bool_decide; auto.
Qed.

(** In the running component a SOLD product has a TRANSFER block of its
    id. *)
Lemma sold_inv `{Host} st :
  reachable st ->
  forall p, p ∈ products st -> p_status p = SOLD ->
  exists t, t ∈ chain st /\ is_transfer_of (p_id p) t.
Proof.
  induction 1 as [now rnd es | st st' _ IH Hstep].
  - intros p Hp Hsold. exfalso.
    pose proof (seedBlocks_shape (hash (genesisBlock now rnd)) es seedProducts 0 None) as HF.
    apply seeded_blocks_listing in HF as (_ & Hprod & _).
    destruct (Hprod p Hp) as (seed & h & Hseed & ->). cbn [set_hashTemp p_status] in Hsold.
    revert Hsold. clear -Hseed.
    repeat (apply elem_of_cons in Hseed as [-> | Hseed]; [discriminate|]).
    now apply elem_of_nil in Hseed.
  - apply step_cases in Hstep
      as [[-> ->] | [(u & newProd & b & _ & _ & _ & Hlisted & _ & -> & -> & Hd)
                    | [(productId & br & prod & b & _ & Hprod & -> & -> & Hd)
                      | (now & rnd & ->)]]].
    + exact IH.
    + intros p [-> | Hin]%elem_of_cons Hsold; [congruence|].
      destruct (IH p Hin Hsold) as (t & Ht & Htr). exists t.
      split; [apply elem_of_app; now left | done].
    + intros p' (p & Hin & [[Hid ->] | [Hid ->]])%elem_of_sold_map Hsold.
      * exists b. split; [apply elem_of_app; right; left|].
        do 4 eexists. split; [exact Hd|]. cbn [tp_id sold_to p_id]. congruence.
      * destruct (IH p Hin Hsold) as (t & Ht & Htr). exists t.
        split; [apply elem_of_app; now left | done].
    + intros p Hp. now apply elem_of_nil in Hp.
Qed.

Lemma data_type_listing_of b id :
  data_type (data b) = js "LISTING" -> data_product_id (data b) = Some id ->
  is_listing_of id b.
Proof.
  destruct (data b) eqn:Hd; try discriminate. intros _ [= <-].
  do 2 eexists. split; [exact Hd | reflexivity].
Qed.

Lemma is_transfer_product_id id b :
  is_transfer_of id b ->
  data_product_id (data b) = Some id /\ data_type (data b) = js "TRANSFER".
Proof. intros (p & f & t & pr & -> & <-). split; reflexivity. Qed.

(** What [find] returns on a filtered list when the first element that
    passes the filter and the test is known, and when there is none. *)
Lemma find_filter_at {A} (P : A -> Prop) `{!forall x, Decision (P x)}
    (f : A -> bool) (c : list A) : forall (i : nat) (x : A),
  c !! i = Some x -> P x -> f x = true ->
  (forall (k : nat) y, (k < i)%nat -> c !! k = Some y -> P y -> f y = true -> False) ->
  List.find f (filter P c) = Some x.
Proof.
  induction c as [|a c IH]; intros i x Hi HP Hf Hfirst; [discriminate|].
  destruct i as [|i].
  - cbn in Hi. injection Hi as ->. rewrite filter_cons_True by done.
    cbn [List.find]. now rewrite Hf.
  - cbn in Hi.
    assert (List.find f (filter P c) = Some x) as Hrest.
    { apply (IH i x Hi HP Hf). intros k y Hk Hy. apply (Hfirst (S k) y); [lia | done]. }
    rewrite filter_cons. destruct (decide (P a)) as [HPa|]; [|exact Hrest].
    cbn [List.find]. destruct (f a) eqn:Hfa; [|exact Hrest].
    exfalso. apply (Hfirst 0%nat a); [lia | done | done | done].
Qed.

Lemma find_filter_none {A} (P : A -> Prop) `{!forall x, Decision (P x)}
    (f : A -> bool) (c : list A) :
  (forall y, y ∈ c -> P y -> f y = true -> False) ->
  List.find f (filter P c) = None.
Proof.
  induction c as [|a c IH]; intros Hno; [reflexivity|].
  assert (List.find f (filter P c) = None) as Hrest.
  { apply IH. intros y Hy. apply Hno. now right. }
  rewrite filter_cons. destruct (decide (P a)) as [HPa|]; [|exact Hrest].
  cbn [List.find]. destruct (f a) eqn:Hfa; [|exact Hrest].
  exfalso. apply (Hno a); [left | done | done].
Qed.

(** In a running component, the trace of an id that has a LISTING block:
    the listing is the first LISTING block of the id, and the transfer the
    first block of the id whose type is TRANSFER. *)
Lemma record_of_listed st id (i : nat) l :
  ledger_inv st ->
  chain st !! i = Some l -> is_listing_of id l ->
  (forall (k : nat) b, (k < i)%nat -> chain st !! k = Some b -> ~ is_listing_of id b) ->
  record id (chain st)
  = Some {| listing := Some l;
            transfer := List.find (fun b => bool_decide (data_type (data b) = js "TRANSFER"))
                          (filter (fun b => data_product_id (data b) = Some id) (chain st)) |}.
Proof.
  intros [_ _ _ _ Hids] Hi Hl Hfirst.
  pose proof (is_listing_product_id _ _ Hl) as Hlid.
  assert (l ∈ chain st) as Hin by (eapply list_elem_of_lookup_2, Hi).
  assert (l ∈ filter (fun b => data_product_id (data b) = Some id) (chain st)) as Hrel.
  { apply list_elem_of_filter. done. }
  unfold record. rewrite (Hids l id Hin Hlid). cbn [negb].
  destruct (filter _ (chain st)) as [|x related] eqn:Hfilter; [now apply elem_of_nil in Hrel|].
  rewrite <- Hfilter. f_equal. f_equal.
  apply (find_filter_at _ _ _ i l Hi Hlid).
  - apply bool_decide_eq_true. now destruct Hl as (? & ? & -> & _).
  - intros k y Hk Hy Hyid Hytype%bool_decide_eq_true.
    apply (Hfirst k y Hk Hy). now apply data_type_listing_of.
Qed.

(** C7: in every state of the running component, take a product id and the
    first LISTING block [l] of that id in the chain (the only one, when the
    id's history has one LISTING block).  Tracing the id returns a record
    whose [listing] is [l].  When the chain has no TRANSFER block of the id,
    the record is [l] as [listing] and no [transfer].  When the chain has a
    TRANSFER block of the id, the first being [t], the record is [l] and
    [t]; [t] comes after [l] in the chain and its index is greater than that
    of [l].  Whenever the trace of the id has a transfer, it is a TRANSFER
    block of the id in the chain and its index is greater than the
    listing's.  And when a product of that id is SOLD, the trace has both
    blocks. *)
Theorem record_listing_then_transfer `{Host}
    (st : AppState) (id : jsstring) (i : nat) (l : Block) :
  reachable st ->
  chain st !! i = Some l -> is_listing_of id l ->
  (forall (k : nat) b, (k < i)%nat -> chain st !! k = Some b -> ~ is_listing_of id b) ->
  (exists r, record id (chain st) = Some r /\ listing r = Some l)
  /\ ((forall t, t ∈ chain st -> ~ is_transfer_of id t) ->
      record id (chain st) = Some {| listing := Some l; transfer := None |})
  /\ (forall (j : nat) t,
        chain st !! j = Some t -> is_transfer_of id t ->
        (forall (k : nat) b, (k < j)%nat -> chain st !! k = Some b -> ~ is_transfer_of id b) ->
        record id (chain st) = Some {| listing := Some l; transfer := Some t |}
        /\ (i < j)%nat /\ (index l < index t)%Z)
  /\ (forall r t, record id (chain st) = Some r -> transfer r = Some t ->
        listing r = Some l /\ t ∈ chain st /\ is_transfer_of id t
        /\ (index l < index t)%Z)
  /\ (forall p, p ∈ products st -> p_id p = id -> p_status p = SOLD ->
        exists t, record id (chain st) = Some {| listing := Some l; transfer := Some t |}
                  /\ t ∈ chain st /\ is_transfer_of id t /\ (index l < index t)%Z).
Proof.
  intros Hreach Hi Hl Hfirst. pose proof (sold_inv st Hreach) as Hsold.
  apply reachable_ledger_inv in Hreach as Hinv.
  pose proof (record_of_listed st id i l Hinv Hi Hl Hfirst) as Hrec.
  pose proof Hinv as [_ Hlink _ Htr _].
  assert (forall (j : nat) t, chain st !! j = Some t -> is_transfer_of id t ->
            (i < j)%nat /\ (index l < index t)%Z) as Hafter.
  { intros j t Hj Ht. destruct (Htr j t id Hj Ht) as (i' & l' & Hi'j & Hi' & Hl').
    assert (i <= i')%nat as Hii'.
    { destruct (decide (i' < i)%nat) as [Hlt|]; [|lia].
      exfalso. exact (Hfirst i' l' Hlt Hi' Hl'). }
    split; [lia|].
    rewrite (linked_from_index _ _ _ i l Hlink Hi), (linked_from_index _ _ _ j t Hlink Hj).
    lia. }
  assert (forall t,
            List.find (fun b => bool_decide (data_type (data b) = js "TRANSFER"))
              (filter (fun b => data_product_id (data b) = Some id) (chain st)) = Some t ->
            t ∈ chain st /\ is_transfer_of id t /\ (index l < index t)%Z) as Hfound.
  { intros t (j & Hj & Hid & Htype%bool_decide_eq_true & _)%find_filter_first.
    pose proof (data_type_transfer t id Htype Hid) as Ht.
    split; [eapply list_elem_of_lookup_2, Hj|]. split; [exact Ht|]. now apply (Hafter j t). }
  split; [eexists; split; [exact Hrec | reflexivity]|].
  split; [|split; [|split]].
  - intros Hnone. rewrite Hrec. f_equal. f_equal.
    apply find_filter_none. intros y Hy Hyid Hytype%bool_decide_eq_true.
    apply (Hnone y Hy). now apply data_type_transfer.
  - intros j t Hj Ht Htfirst. split; [|now apply Hafter].
    rewrite Hrec. f_equal. f_equal.
    pose proof (is_transfer_product_id _ _ Ht) as [Htid Httype].
    apply (find_filter_at _ _ _ j t Hj Htid); [now apply bool_decide_eq_true|].
    intros k y Hk Hy Hyid Hytype%bool_decide_eq_true.
    apply (Htfirst k y Hk Hy). now apply data_type_transfer.
  - intros r t Hr Hrt. rewrite Hrec in Hr. injection Hr as <-. cbn [listing transfer] in *.
    split; [reflexivity|]. now apply Hfound.
  - intros p Hp <- Hpsold. destruct (Hsold p Hp Hpsold) as (t0 & Ht0 & Htr0).
    pose proof (is_transfer_product_id _ _ Htr0) as [Ht0id Ht0type].
    destruct (find_Some_in (fun b => bool_decide (data_type (data b) = js "TRANSFER"))
                (filter (fun b => data_product_id (data b) = Some (p_id p)) (chain st)) t0)
      as [t Ht].
    { apply list_elem_of_filter. done. }
    { now apply bool_decide_eq_true. }
    exists t. split; [rewrite Hrec, Ht; reflexivity|]. now apply Hfound.
Qed.

(** C7 at the demo run, after broker1 has ordered AGR-1001: the history of
    AGR-1002 is its LISTING block 2 alone, that of AGR-1001 its LISTING
    block 1 and the TRANSFER block 3. *)
Lemma record_listing_then_transfer_witness :
  record (js "AGR-1002") (chain demoSoldState)
  = Some {| listing := Some (demoBlock 2); transfer := None |}
  /\ record (js "AGR-1001") (chain demoSoldState)
     = Some {| listing := Some (demoBlock 1); transfer := Some (demoBlock 3) |}
  /\ (index (demoBlock 1) < index (demoBlock 3))%Z.
Proof.
  assert (@reachable decimalHost demoSoldState) as Hreach.
  { apply (@reachable_step decimalHost demoBrokerState); [|demo_broker_order].
    apply (@reachable_step decimalHost demoInitial); [apply reachable_init | demo_broker_login]. }
  assert (forall (k : nat) b id, chain demoSoldState !! k = Some b -> is_listing_of id b ->
            (k = 1%nat /\ id = js "AGR-1001") \/ (k = 2%nat /\ id = js "AGR-1002")) as Hlistings.
  { intros k b id Hk (p & a & Hd & <-).
    destruct k as [|[|[|[|k]]]]; vm_compute in Hk; try discriminate Hk;
      injection Hk as <-; cbn [data] in Hd; try discriminate Hd;
      injection Hd as <- _; auto. }
  assert (forall (k : nat) b id, chain demoSoldState !! k = Some b -> is_transfer_of id b ->
            k = 3%nat /\ id = js "AGR-1001") as Htransfers.
  { intros k b id Hk (p & from & to & price & Hd & <-).
    destruct k as [|[|[|[|k]]]]; vm_compute in Hk; try discriminate Hk;
      injection Hk as <-; cbn [data] in Hd; try discriminate Hd;
      injection Hd as <- _ _ _; auto. }
  destruct (@record_listing_then_transfer decimalHost demoSoldState (js "AGR-1002") 2
              (demoBlock 2) Hreach) as (_ & Honly & _).
  { vm_compute. reflexivity. }
  { do 2 eexists. split; vm_compute; reflexivity. }
  { intros k b Hk Hb Hl. destruct (Hlistings k b _ Hb Hl) as [[_ E] | [-> _]]; [|lia].
    vm_compute in E. discriminate E. }
  destruct (@record_listing_then_transfer decimalHost demoSoldState (js "AGR-1001") 1
              (demoBlock 1) Hreach) as (_ & _ & Hboth & _).
  { vm_compute. reflexivity. }
  { do 2 eexists. split; vm_compute; reflexivity. }
  { intros k b Hk Hb Hl. destruct (Hlistings k b _ Hb Hl) as [[-> _] | [-> _]]; lia. }
  split.
  - apply Honly. intros t [k Hk]%list_elem_of_lookup_1 Ht.
    destruct (Htransfers k t _ Hk Ht) as [_ E]. vm_compute in E. discriminate E.
  - destruct (Hboth 3%nat (demoBlock 3)) as (Hrec & _ & Hlt).
    + vm_compute. reflexivity.
    + do 4 eexists. split; vm_compute; reflexivity.
    + intros k b Hk Hb Ht. destruct (Htransfers k b _ Hb Ht) as [-> _]. lia.
    + split; [exact Hrec | exact Hlt].
Defined.

(** In the running component the Consumer view finds every product of
    [products] by its id: the trace has a listing, a LISTING block of that
    id, and when the product is SOLD it has a transfer too, a TRANSFER block
    of that id with a greater index. *)
Theorem products_traceable `{Host} (st : AppState) (p : Product) :
  reachable st -> p ∈ products st ->
  exists r l,
    record (p_id p) (chain st) = Some r
    /\ listing r = Some l /\ is_listing_of (p_id p) l
    /\ (p_status p = SOLD ->
        exists t, transfer r = Some t /\ is_transfer_of (p_id p) t
                  /\ (index l < index t)%Z).
Proof.
  intros Hreach Hp.
  pose proof (reachable_ledger_inv st Hreach) as [_ _ Hprod _ _].
  destruct (Hprod p Hp) as (Htruthy & b0 & Hb0 & Hl0).
  set (related := filter (fun b => data_product_id (data b) = Some (p_id p)) (chain st)).
  assert (b0 ∈ related) as Hb0r.
  { apply list_elem_of_filter. split; [now apply is_listing_product_id | done]. }
  assert (record (p_id p) (chain st)
          = Some {| listing := List.find (fun b => bool_decide (data_type (data b) = js "LISTING"))
                                 related;
                    transfer := List.find (fun b => bool_decide (data_type (data b) = js "TRANSFER"))
                                  related |}) as Hrec.
  { unfold record. rewrite Htruthy. cbn [negb]. fold related.
    destruct related; [now apply elem_of_nil in Hb0r | reflexivity]. }
  destruct (find_Some_in (fun b => bool_decide (data_type (data b) = js "LISTING")) related b0)
    as [l Hl]; [done | |].
  { apply bool_decide_eq_true. now destruct Hl0 as (? & ? & -> & _). }
  do 2 eexists. split; [exact Hrec|]. cbn [listing transfer]. split; [exact Hl|].
  pose proof Hl as [Hlin Hltype]%find_some.
  apply list_elem_of_In, list_elem_of_filter in Hlin as [Hlid _].
  apply bool_decide_eq_true in Hltype. split; [now apply data_type_listing_of|].
  intros Hsold. destruct (sold_inv st Hreach p Hp Hsold) as (t0 & Ht0 & Htr0).
  pose proof (is_transfer_product_id _ _ Htr0) as [Ht0id Ht0type].
  destruct (find_Some_in (fun b => bool_decide (data_type (data b) = js "TRANSFER")) related t0)
    as [t Ht].
  { apply list_elem_of_filter. done. }
  { now apply bool_decide_eq_true. }
  exists t. split; [exact Ht|].
  pose proof Ht as [Htin Httype]%find_some.
  apply list_elem_of_In, list_elem_of_filter in Htin as [Htid _].
  apply bool_decide_eq_true in Httype. split; [now apply data_type_transfer|].
  destruct (record_transfer_after_listing st (p_id p) _ t Hreach Hrec Ht)
    as (l' & Hl' & Hlt). cbn [listing] in Hl'. congruence.
Qed.

(** [products_traceable] at the demo run: the sold AGR-1001. *)
Lemma products_traceable_witness :
  exists r l,
    record (js "AGR-1001") (chain demoSoldState) = Some r
    /\ listing r = Some l /\ is_listing_of (js "AGR-1001") l
    /\ (SOLD = SOLD ->
        exists t, transfer r = Some t /\ is_transfer_of (js "AGR-1001") t
                  /\ (index l < index t)%Z).
Proof.
  apply (@products_traceable decimalHost demoSoldState
           (sold_to
              (set_hashTemp (mkProduct (js "AGR-1001") (js "Organic Tomatoes")
                 (Finite (120 # 1)) (Finite (28 # 1))
                 (mkActor (js "F-001") (js "Ravi Kumar") (js "Narsinghpur")) LISTED None None)
                 (js "EA7603918F3A91C2")) demoBroker)).
  - apply (@reachable_step decimalHost demoBrokerState); [|demo_broker_order].
    apply (@reachable_step decimalHost demoInitial); [apply reachable_init | demo_broker_login].
  - apply list_elem_of_In. vm_compute. left. reflexivity.
Defined.

(** ** The Admin view's filter *)

Lemma seed_farmer_ids u :
  u ∈ seedUsers -> u_role u = farmer -> startsWith (u_id u) (js "F-") = true.
Proof.
  intros Hin Hr.
  repeat (apply elem_of_cons in Hin as [-> | Hin]; [first [reflexivity | discriminate]|]).
  now apply elem_of_nil in Hin.
Qed.

(** In the running component the actor of every LISTING block has an id
    that starts with [F-]. *)
Lemma listing_actor_inv `{Host} st :
  reachable st ->
  forall b p a, b ∈ chain st -> data b = LISTING p a -> startsWith (actor_id a) (js "F-") = true.
Proof.
  induction 1 as [now rnd es | st st' Hreach IH Hstep].
  - intros b p a Hb Hd.
    pose proof (seedBlocks_shape (hash (genesisBlock now rnd)) es seedProducts 0 None) as HF.
    apply seeded_blocks_listing in HF as (Hblocks & _ & _).
    unfold initialState in Hb. cbn [chain] in Hb.
    apply elem_of_cons in Hb as [-> | Hb]; [discriminate|].
    destruct (Hblocks b Hb) as (seed & p' & Hseed & Hd'). rewrite Hd' in Hd.
    injection Hd as _ <-. clear -Hseed.
    repeat (apply elem_of_cons in Hseed as [-> | Hseed]; [reflexivity|]).
    now apply elem_of_nil in Hseed.
  - pose proof (session_inv st Hreach) as (_ & _ & Hseed).
    apply step_cases in Hstep
      as [[_ ->] | [(u & newProd & b0 & Hu & Hrole & _ & _ & Hactor & _ & -> & Hd0)
                   | [(productId & br & prod & b0 & _ & _ & _ & -> & Hd0)
                     | (now & rnd & ->)]]].
    + exact IH.
    + intros b p a [Hb | Hb]%elem_of_app Hd; [eauto|].
      apply list_elem_of_singleton in Hb as ->. rewrite Hd0 in Hd. injection Hd as _ <-.
      rewrite Hactor. apply seed_farmer_ids; [now apply Hseed | done].
    + intros b p a [Hb | Hb]%elem_of_app Hd; [eauto|].
      apply list_elem_of_singleton in Hb as ->. congruence.
    + intros b p a Hb%list_elem_of_singleton Hd. subst b. discriminate.
Qed.

(** In the running component the Admin view's "Farmer" filter shows the
    chain without its TRANSFER blocks (the genesis block and every LISTING
    block, in chain order); "All" shows the chain; and any other value than
    "all", "farmer" and "broker" shows the GENESIS blocks only. *)
Theorem filteredChain_farmer `{Host} (st : AppState) :
  reachable st ->
  filteredChain (js "farmer") (chain st)
  = List.filter (fun b => negb (bool_decide (data_type (data b) = js "TRANSFER"))) (chain st)
  /\ filteredChain (js "all") (chain st) = chain st
  /\ forall other, other <> js "all" -> other <> js "farmer" -> other <> js "broker" ->
       filteredChain other (chain st) = blocksOfType "GENESIS" (chain st).
Proof.
  intros Hreach. split; [|split; [reflexivity|]].
  - unfold filteredChain. rewrite bool_decide_eq_false_2 by js_discriminate.
    apply filter_ext_in. intros b Hb%list_elem_of_In. unfold filterKeeps.
    destruct (data b) as [m | p a | tp f t pr] eqn:Hd; cbn [data_type data_actor_id].
    + rewrite (bool_decide_eq_true_2 (js "GENESIS" = js "GENESIS")) by reflexivity.
      rewrite bool_decide_eq_false_2 by js_discriminate. reflexivity.
    + rewrite (bool_decide_eq_false_2 (js "LISTING" = js "GENESIS")) by js_discriminate.
      rewrite (bool_decide_eq_true_2 (js "farmer" = js "farmer")) by reflexivity.
      rewrite (bool_decide_eq_false_2 (js "LISTING" = js "TRANSFER")) by js_discriminate.
      apply (listing_actor_inv st Hreach b p a Hb Hd).
    + rewrite (bool_decide_eq_false_2 (js "TRANSFER" = js "GENESIS")) by js_discriminate.
      rewrite (bool_decide_eq_true_2 (js "farmer" = js "farmer")) by reflexivity.
      rewrite (bool_decide_eq_true_2 (js "TRANSFER" = js "TRANSFER")) by reflexivity.
      reflexivity.
  - intros other Hall Hfarmer Hbroker. unfold filteredChain, blocksOfType.
    rewrite bool_decide_eq_false_2 by done.
    apply filter_ext. intros b. unfold filterKeeps.
    rewrite (bool_decide_eq_false_2 (other = js "farmer")) by done.
    rewrite (bool_decide_eq_false_2 (other = js "broker")) by done.
    now destruct (bool_decide (data_type (data b) = js "GENESIS")).
Qed.

(** [filteredChain_farmer] at the demo run after broker1's order. *)
Lemma filteredChain_farmer_witness :
  filteredChain (js "farmer") (chain demoSoldState)
  = List.filter (fun b => negb (bool_decide (data_type (data b) = js "TRANSFER")))
      (chain demoSoldState)
  /\ filteredChain (js "all") (chain demoSoldState) = chain demoSoldState
  /\ forall other, other <> js "all" -> other <> js "farmer" -> other <> js "broker" ->
       filteredChain other (chain demoSoldState) = blocksOfType "GENESIS" (chain demoSoldState).
Proof.
  apply (@filteredChain_farmer decimalHost demoSoldState).
  apply (@reachable_step decimalHost demoBrokerState); [|demo_broker_order].
  apply (@reachable_step decimalHost demoInitial); [apply reachable_init | demo_broker_login].
Defined.

Example filteredChain_demo :
  index <$> filteredChain (js "farmer") (chain demoSoldState) = [0; 1; 2]%Z
  /\ index <$> filteredChain (js "broker") (chain demoSoldState) = [0; 3]%Z.
Proof. split; vm_compute; reflexivity. Qed.

(** ** An accepted upload *)

(** A click on the enabled upload button with a form that [validateForm]
    accepts lists the form's product for the logged-in user: the product has
    the form's id and name, the converted quantity and price, status LISTED,
    and as farmer the user's id with the form's farmer name and village (an
    empty village is stored as a dash); it is put first in [products] and in
    the user's "Recent Listings", its LISTING block is appended with that
    farmer as actor, and the form is replaced by a fresh one with no
    errors. *)
Theorem farmerUpload_lists `{Host}
    (n : Z) (e : Entropy) (st : AppState) (fs : FarmerState) (u : User) :
  user st = Some u -> chain st <> [] ->
  uploadDisabled (form fs) = false -> snd (validateForm (form fs)) = true ->
  let newProd :=
    {| p_id := f_id (form fs);
       p_name := f_name (form fs);
       p_quantityKg := Number (f_quantityKg (form fs));
       p_basePricePerKg := Number (f_basePricePerKg (form fs));
       p_farmer :=
         {| actor_id := u_id u;
            actor_name := f_farmerName (form fs);
            actor_village :=
              if truthy (f_village (form fs)) then f_village (form fs) else [8212%N] |};
       p_status := LISTED;
       p_hashTemp := None;
       p_broker := None |} in
  exists st' b,
    farmerUpload n e st fs = Some (st', {| form := freshForm u n; errors := noErrors |})
    /\ products st' = newProd :: products st
    /\ recentListings u (products st') = newProd :: recentListings u (products st)
    /\ chain st' = chain st ++ [b]
    /\ data b = LISTING newProd (p_farmer newProd)
    /\ view st' = view st /\ user st' = user st.
Proof.
  intros Hu Hne Hdis Hok newProd. unfold farmerUpload. rewrite Hdis.
  destruct (validateForm (form fs)) as [newErrors ok]. cbn [snd] in Hok. subst ok.
  cbn [negb]. rewrite Hu.
  match goal with |- context [listProduct ?a e st] => set (arg := a) end.
  destruct (appendBlock_total
              (LISTING newProd (with_actor_id (l_farmer arg) (u_id u))) e (chain st) Hne)
    as [c' Happ].
  pose proof Happ as (l & _ & ->)%appendBlock_snoc.
  unfold listProduct. rewrite Hu.
  change (mkProduct (l_id arg) (l_name arg) (Number (l_quantityKg arg))
            (Number (l_basePricePerKg arg)) (with_actor_id (l_farmer arg) (u_id u))
            LISTED None None) with newProd.
  rewrite Happ. do 2 eexists. split; [reflexivity|]. cbn [products chain view user].
  split; [reflexivity|]. split; [|split; [reflexivity|split; [reflexivity|done]]].
  unfold recentListings. cbn [List.filter]. subst newProd. cbn [p_farmer actor_id].
  now rewrite bool_decide_eq_true_2 by reflexivity.
Qed.

(** [farmerUpload_lists] at the demo run: farmer1 uploads 5 kg at 40. *)
Lemma farmerUpload_lists_witness :
  let u := mkUser (js "F-001") (js "farmer1") (js "password1") farmer (js "Ravi Kumar")
             (Some (js "Narsinghpur")) in
  let newProd :=
    {| p_id := js "AGR-1001";
       p_name := js "Okra";
       p_quantityKg := Finite (inject_Z 5);
       p_basePricePerKg := Finite (inject_Z 40);
       p_farmer := mkActor (js "F-001") (js "Ravi Kumar") (js "Narsinghpur");
       p_status := LISTED;
       p_hashTemp := None;
       p_broker := None |} in
  exists st' b,
    @farmerUpload decimalHost 2000 demoEntropy demoFarmerState
      (mkFarmerState (demoForm "5" "40") noErrors)
    = Some (st', {| form := freshForm u 2000; errors := noErrors |})
    /\ products st' = newProd :: products demoFarmerState
    /\ recentListings u (products st') = newProd :: recentListings u (products demoFarmerState)
    /\ chain st' = chain demoFarmerState ++ [b]
    /\ data b = LISTING newProd (p_farmer newProd)
    /\ view st' = view demoFarmerState /\ user st' = user demoFarmerState.
Proof.
  apply (@farmerUpload_lists decimalHost 2000 demoEntropy demoFarmerState
           (mkFarmerState (demoForm "5" "40") noErrors)
           (mkUser (js "F-001") (js "farmer1") (js "password1") farmer (js "Ravi Kumar")
              (Some (js "Narsinghpur"))));
    first [reflexivity | discriminate].
Defined.

(** ** Recent listings *)

Lemma elem_of_recentListings u ps p :
  p ∈ recentListings u ps <-> p ∈ ps /\ actor_id (p_farmer p) = u_id u.
Proof.
  unfold recentListings. rewrite !list_elem_of_In, filter_In.
  now rewrite bool_decide_eq_true.
Qed.

(** Whatever happens in the app short of a confirmed reset, a product in a
    farmer's "Recent Listings" stays there, with its id, name and farmer:
    logging out and in, moving between views, other uploads and orders do
    not lose it. *)
Theorem recentListings_kept `{Host} (st st' : AppState) (u : User) :
  step st st' ->
  (exists now rnd, st' = resetBlockchain true now rnd st)
  \/ forall p, p ∈ recentListings u (products st) ->
       exists p', p' ∈ recentListings u (products st')
                  /\ p_id p' = p_id p /\ p_name p' = p_name p /\ p_farmer p' = p_farmer p.
Proof.
  intros [[-> _] | [(u0 & newProd & b & _ & _ & _ & _ & _ & -> & _)
                   | [(productId & br & prod & b & _ & _ & -> & _) | Hreset]]]%step_cases.
  - right. intros p Hp. exists p. done.
  - right. intros p [Hp Hf]%elem_of_recentListings. exists p.
    split; [|done]. apply elem_of_recentListings. split; [now right | done].
  - right. intros p [Hp Hf]%elem_of_recentListings.
    exists (if bool_decide (p_id p = productId) then sold_to p br else p).
    split; [|now case_bool_decide].
    apply elem_of_recentListings. split; [|now case_bool_decide].
    apply list_elem_of_In.
    apply (in_map (fun q => if bool_decide (p_id q = productId) then sold_to q br else q)
             (products st) p).
    now apply list_elem_of_In.
  - now left.
Qed.

(** [recentListings_kept] at the demo run: broker1's order of AGR-1001 and
    farmer F-001's listings. *)
Lemma recentListings_kept_witness :
  (exists now rnd, demoSoldState = resetBlockchain true now rnd demoBrokerState)
  \/ forall p,
       p ∈ recentListings
             (mkUser (js "F-001") (js "farmer1") (js "password1") farmer (js "Ravi Kumar")
                (Some (js "Narsinghpur"))) (products demoBrokerState) ->
       exists p',
         p' ∈ recentListings
                (mkUser (js "F-001") (js "farmer1") (js "password1") farmer (js "Ravi Kumar")
                   (Some (js "Narsinghpur"))) (products demoSoldState)
         /\ p_id p' = p_id p /\ p_name p' = p_name p /\ p_farmer p' = p_farmer p.
Proof.
  apply (@recentListings_kept decimalHost demoBrokerState demoSoldState).
  demo_broker_order.
Defined.

(** ** Listing, ordering and then tracing *)

Lemma related_none (P : Block -> Prop) `{!forall b, Decision (P b)} (c : list Block) :
  (forall b, b ∈ c -> ~ P b) -> filter P c = [].
Proof.
  induction c as [|b c IH]; intros Hno; [reflexivity|].
  rewrite filter_cons_False by (apply Hno; left).
  apply IH. intros b' Hb'. apply Hno. now right.
Qed.

Lemma related_snoc (P : Block -> Prop) `{!forall b, Decision (P b)} (c : list Block) b :
  P b -> filter P (c ++ [b]) = filter P c ++ [b].
Proof.
  intros HP. induction c as [|x c IH]; cbn [app].
  - now rewrite filter_cons_True by done.
  - rewrite !filter_cons. destruct (decide (P x)); [cbn [app]; now f_equal | done].
Qed.

Lemma find_snoc {A} (f : A -> bool) (l : list A) x :
  List.find f (l ++ [x])
  = match List.find f l with
    | Some y => Some y
    | None => if f x then Some x else None
    end.
Proof.
  induction l as [|a l IH]; cbn [app List.find]; [reflexivity|].
  destruct (f a); [reflexivity | exact IH].
Qed.

(** After [listProduct] with a non-empty id that no block of the chain
    carries yet, the trace of that id is the new block as listing and no
    transfer. *)
Theorem listProduct_then_record `{Host}
    (a : Listing) (e : Entropy) (st st' : AppState) :
  listProduct a e st = Some st' -> truthy (l_id a) = true ->
  (forall b, b ∈ chain st -> data_product_id (data b) <> Some (l_id a)) ->
  exists b,
    list.last (chain st') = Some b
    /\ (exists p actor, data b = LISTING p actor /\ p_id p = l_id a)
    /\ record (l_id a) (chain st') = Some {| listing := Some b; transfer := None |}.
Proof.
  intros (u & chain' & _ & Happ & ->)%listProduct_inv Hid Hfresh.
  apply appendBlock_snoc in Happ as (l & _ & ->). cbn [chain].
  eexists. split; [apply last_snoc|]. split; [do 2 eexists; split; reflexivity|].
  unfold record. rewrite Hid. cbn [negb].
  rewrite related_snoc by reflexivity. rewrite related_none by exact Hfresh.
  cbn [app List.find set_index makeBlock data data_type].
  rewrite (bool_decide_eq_true_2 (js "LISTING" = js "LISTING")) by reflexivity.
  rewrite (bool_decide_eq_false_2 (js "LISTING" = js "TRANSFER")) by js_discriminate.
  reflexivity.
Qed.

(** [listProduct_then_record] at the demo run: farmer1 lists AGR-2000. *)
Lemma listProduct_then_record_witness :
  exists b,
    list.last (chain (default demoFarmerState
                        (@listProduct decimalHost (demoListing "5" "40") demoEntropy
                           demoFarmerState))) = Some b
    /\ (exists p actor, data b = LISTING p actor /\ p_id p = js "AGR-2000")
    /\ record (js "AGR-2000")
         (chain (default demoFarmerState
                   (@listProduct decimalHost (demoListing "5" "40") demoEntropy
                      demoFarmerState)))
       = Some {| listing := Some b; transfer := None |}.
Proof.
  apply (@listProduct_then_record decimalHost (demoListing "5" "40") demoEntropy
           demoFarmerState).
  - vm_compute. reflexivity.
  - reflexivity.
  - intros b Hb. apply list_elem_of_In in Hb. vm_compute in Hb.
    destruct Hb as [<- | [<- | [<- | []]]]; js_discriminate.
Defined.

Lemma ledger_inv_transfer_after_listing st query r t :
  ledger_inv st -> record query (chain st) = Some r -> transfer r = Some t ->
  exists l, listing r = Some l /\ (index l < index t)%Z.
Proof.
  intros [Hne Hlink Hprod Htr Hids] (Hq & Hl & Ht)%record_Some Htt.
  rewrite Ht in Htt.
  apply find_filter_first in Htt as (j & Hj & Hid & Htype%bool_decide_eq_true & _).
  destruct (Htr j t query Hj (data_type_transfer t query Htype Hid))
    as (i & l' & Hij & Hi & Hl').
  assert (data_type (data l') = js "LISTING") as Hl'type by now destruct Hl' as (? & ? & -> & _).
  pose proof (is_listing_product_id _ _ Hl') as Hl'id.
  destruct (listing r) as [l|] eqn:Hlr.
  - exists l. split; [done|]. symmetry in Hl.
    apply find_filter_first in Hl as (k & Hk & _ & _ & Hfirst).
    assert (k <= i)%nat as Hki by (apply (Hfirst i l'); [done | done | now apply bool_decide_eq_true]).
    rewrite (linked_from_index _ _ _ k l Hlink Hk), (linked_from_index _ _ _ j t Hlink Hj). lia.
  - exfalso. symmetry in Hl.
    assert (l' ∈ filter (fun b => data_product_id (data b) = Some query) (chain st)) as Hin.
    { apply list_elem_of_filter. split; [done|]. eapply list_elem_of_lookup_2, Hi. }
    apply (find_none_all _ _ _ Hl) in Hin. now apply bool_decide_eq_false in Hin.
Qed.

(** In the running component, a confirmed [orderProduct] for the id of a
    product that has no TRANSFER block yet returns, and the trace of that id
    then has both blocks: a LISTING block of the id, and as transfer the new
    last block of the chain, which records the product's id, name and
    quantity, its farmer as [from], the broker as [to] and the base price;
    the transfer's index is the old length of the chain, above the listing's
    index. *)
Theorem orderProduct_then_record `{Host}
    (productId : jsstring) (br : BrokerRef) (e : Entropy) (st : AppState) (prod : Product) :
  reachable st ->
  List.find (fun p => bool_decide (p_id p = productId)) (products st) = Some prod ->
  (forall t, t ∈ chain st -> ~ is_transfer_of productId t) ->
  exists st' l t,
    orderProduct productId br true e st = Some st'
    /\ record productId (chain st') = Some {| listing := Some l; transfer := Some t |}
    /\ is_listing_of productId l
    /\ list.last (chain st') = Some t
    /\ data t = TRANSFER {| tp_id := p_id prod; tp_name := p_name prod;
                            tp_quantityKg := p_quantityKg prod |}
                  (p_farmer prod) br (p_basePricePerKg prod)
    /\ index t = Z.of_nat (length (chain st))
    /\ (index l < index t)%Z.
Proof.
  intros Hreach Hfind Hnone.
  pose proof (reachable_ledger_inv st Hreach) as Hinv.
  pose proof Hinv as [Hne Hlink Hprod _ _].
  pose proof Hfind as [Hprodin Hpid]%find_id_Some.
  destruct (Hprod prod Hprodin) as (Htruthy & b0 & Hb0 & Hl0). rewrite Hpid in Htruthy, Hl0.
  destruct (appendBlock_total
              (TRANSFER {| tp_id := p_id prod; tp_name := p_name prod;
                           tp_quantityKg := p_quantityKg prod |}
                        (p_farmer prod) br (p_basePricePerKg prod)) e (chain st) Hne)
    as [c' Happ].
  assert (orderProduct productId br true e st
          = Some {| view := view st;
                    products := map (fun p => if bool_decide (p_id p = productId)
                                              then sold_to p br else p) (products st);
                    chain := c';
                    user := user st;
                    toast := Some (mkToast (js "Order placed successfully!") success) |})
    as Hord.
  { unfold orderProduct. cbn [negb]. now rewrite Hfind, Happ. }
  pose proof (ledger_inv_orderProduct _ _ _ _ _ _ Hord Hinv) as Hinv'.
  pose proof Happ as (lastb & Hlast & ->)%appendBlock_snoc.
  set (t := set_index _ _) in *.
  assert (data t = TRANSFER {| tp_id := p_id prod; tp_name := p_name prod;
                               tp_quantityKg := p_quantityKg prod |}
                     (p_farmer prod) br (p_basePricePerKg prod)) as Hdt by reflexivity.
  set (related := filter (fun b => data_product_id (data b) = Some productId) (chain st)).
  assert (b0 ∈ related) as Hb0r.
  { apply list_elem_of_filter. split; [now apply is_listing_product_id | done]. }
  destruct (find_Some_in (fun b => bool_decide (data_type (data b) = js "LISTING")) related b0)
    as [l Hl]; [done | |].
  { apply bool_decide_eq_true. now destruct Hl0 as (? & ? & -> & _). }
  assert (List.find (fun b => bool_decide (data_type (data b) = js "TRANSFER")) related = None)
    as HnoT.
  { destruct (List.find (fun b => bool_decide (data_type (data b) = js "TRANSFER")) related)
      as [t0|] eqn:Ht0; [|reflexivity]. exfalso.
    apply find_some in Ht0 as [Hin Htype].
    apply list_elem_of_In, list_elem_of_filter in Hin as [Hid Hin].
    apply bool_decide_eq_true in Htype.
    apply (Hnone t0 Hin). now apply data_type_transfer. }
  assert (record productId (chain st ++ [t])
          = Some {| listing := Some l; transfer := Some t |}) as Hrec.
  { unfold record. rewrite Htruthy. cbn [negb].
    rewrite related_snoc by (rewrite Hdt; cbn; now rewrite Hpid). fold related.
    destruct (related ++ [t]) as [|r0 rest] eqn:Hrel; [now destruct related|].
    rewrite <- Hrel. rewrite !find_snoc, Hl, HnoT, Hdt. cbn [data_type].
    now rewrite (bool_decide_eq_true_2 (js "TRANSFER" = js "TRANSFER")) by reflexivity. }
  eexists _, l, t. split; [exact Hord|]. cbn [chain] in *.
  split; [exact Hrec|].
  pose proof Hl as [Hlin Hltype]%find_some.
  apply list_elem_of_In, list_elem_of_filter in Hlin as [Hlid _].
  apply bool_decide_eq_true in Hltype.
  split; [now apply data_type_listing_of|]. split; [apply last_snoc|]. split; [exact Hdt|].
  pose proof Hinv' as [_ Hlink' _ _ _]. cbn [chain] in Hlink'.
  assert (index t = Z.of_nat (length (chain st))) as Hidx.
  { rewrite (linked_from_index _ _ _ (length (chain st)) t Hlink'); [lia|].
    rewrite lookup_app_r by lia. now rewrite Nat.sub_diag. }
  split; [exact Hidx|].
  destruct (ledger_inv_transfer_after_listing _ productId
              {| listing := Some l; transfer := Some t |} t Hinv' Hrec eq_refl)
    as (l' & Hl' & Hlt).
  cbn [listing] in Hl'. injection Hl' as <-. exact Hlt.
Qed.

(** [orderProduct_then_record] at the demo run: broker1 orders AGR-1001. *)
Lemma orderProduct_then_record_witness :
  exists st' l t,
    @orderProduct decimalHost (js "AGR-1001") demoBroker true demoEntropy demoBrokerState
    = Some st'
    /\ record (js "AGR-1001") (chain st') = Some {| listing := Some l; transfer := Some t |}
    /\ is_listing_of (js "AGR-1001") l
    /\ list.last (chain st') = Some t
    /\ data t = TRANSFER {| tp_id := js "AGR-1001"; tp_name := js "Organic Tomatoes";
                            tp_quantityKg := Finite (120 # 1) |}
                  (mkActor (js "F-001") (js "Ravi Kumar") (js "Narsinghpur")) demoBroker
                  (Finite (28 # 1))
    /\ index t = Z.of_nat (length (chain demoBrokerState))
    /\ (index l < index t)%Z.
Proof.
  apply (@orderProduct_then_record decimalHost (js "AGR-1001") demoBroker demoEntropy
           demoBrokerState
           (set_hashTemp (mkProduct (js "AGR-1001") (js "Organic Tomatoes")
              (Finite (120 # 1)) (Finite (28 # 1))
              (mkActor (js "F-001") (js "Ravi Kumar") (js "Narsinghpur")) LISTED None None)
              (js "EA7603918F3A91C2"))).
  - apply (@reachable_step decimalHost demoInitial); [apply reachable_init | demo_broker_login].
  - vm_compute. reflexivity.
  - intros t Ht (tp & f & to & pr & Hd & _). apply list_elem_of_In in Ht. vm_compute in Ht.
    destruct Ht as [<- | [<- | [<- | []]]]; discriminate Hd.
Defined.

(** ** Indices and positions *)

(** In the running component the index a block shows is its position in the
    chain: indices are distinct and the last block's index is the length of
    the chain less one. *)
Theorem reachable_index_position `{Host} (st : AppState) :
  reachable st ->
  (forall (i : nat) b, chain st !! i = Some b -> index b = Z.of_nat i)
  /\ (forall (i j : nat) b b', chain st !! i = Some b -> chain st !! j = Some b' ->
        index b = index b' -> i = j)
  /\ exists l, list.last (chain st) = Some l
               /\ index l = (Z.of_nat (length (chain st)) - 1)%Z.
Proof.
  intros [Hne Hlink _ _ _]%reachable_ledger_inv.
  assert (forall (i : nat) b, chain st !! i = Some b -> index b = Z.of_nat i) as Hpos.
  { intros i b Hi. rewrite (linked_from_index _ _ _ i b Hlink Hi). lia. }
  split; [exact Hpos|]. split.
  - intros i j b b' Hi Hj Heq. apply Hpos in Hi, Hj. lia.
  - destruct (list.last (chain st)) as [l|] eqn:Hl; [|now apply last_None in Hl].
    exists l. split; [done|]. rewrite last_lookup in Hl. apply Hpos in Hl.
    destruct (chain st); [done|]. cbn [length] in *. lia.
Qed.

(** [reachable_index_position] at the demo run after broker1's order. *)
Lemma reachable_index_position_witness :
  (forall (i : nat) b, chain demoSoldState !! i = Some b -> index b = Z.of_nat i)
  /\ (forall (i j : nat) b b',
        chain demoSoldState !! i = Some b -> chain demoSoldState !! j = Some b' ->
        index b = index b' -> i = j)
  /\ exists l, list.last (chain demoSoldState) = Some l
               /\ index l = (Z.of_nat (length (chain demoSoldState)) - 1)%Z.
Proof.
  apply (@reachable_index_position decimalHost demoSoldState).
  apply (@reachable_step decimalHost demoBrokerState); [|demo_broker_order].
  apply (@reachable_step decimalHost demoInitial); [apply reachable_init | demo_broker_login].
Defined.

(** ** The characters of a hash *)

Lemma isLowerHex_digitUnit d : (0 <= d < 16)%Z -> isLowerHex (digitUnit d) = true.
Proof.
  intros Hd. unfold isLowerHex, digitUnit.
  destruct (Z.ltb_spec d 10); apply orb_true_iff; [left | right];
    apply andb_true_iff; split; apply N.leb_le; lia.
Qed.

Lemma digitsRadix_16_hex fuel : forall n,
  (0 <= n)%Z -> Forall (fun c => isLowerHex c = true) (digitsRadix 16 fuel n).
Proof.
  induction fuel as [|fuel IH]; intros n Hn; cbn [digitsRadix]; [constructor|].
  destruct (Z.ltb_spec n 16).
  - repeat constructor. apply isLowerHex_digitUnit. lia.
  - apply Forall_app. split.
    + apply IH. apply Z.div_pos; lia.
    + repeat constructor. apply isLowerHex_digitUnit.
      pose proof (Z.mod_pos_bound n 16). lia.
Qed.

Lemma isUpperHex_upperUnit c : isLowerHex c = true -> isUpperHex (upperUnit c) = true.
Proof.
  unfold isLowerHex, isUpperHex, upperUnit. intros Hc.
  apply orb_true_iff in Hc as [Hc | Hc]; apply andb_true_iff in Hc as [H1 H2];
    apply N.leb_le in H1, H2.
  - destruct ((97 <=? c) && (c <=? 122))%N eqn:E.
    + apply andb_true_iff in E as [E _]. apply N.leb_le in E. lia.
    + apply orb_true_iff. left. apply andb_true_iff. split; apply N.leb_le; lia.
  - destruct ((97 <=? c) && (c <=? 122))%N eqn:E.
    + apply orb_true_iff. right. apply andb_true_iff. split; apply N.leb_le; lia.
    + apply andb_false_iff in E as [E | E]; apply N.leb_gt in E; lia.
Qed.

(** When [Math.random().toString(16)] has its usual form, [0.] followed by
    hexadecimal digits, every character of the hash is one of 0-9 and A-F:
    the upper-casing leaves no lower-case letter. *)
Theorem pseudoHash_upper_hex (input rnd : jsstring) :
  Forall (fun c => isLowerHex c = true) (drop 2 rnd) ->
  Forall (fun c => isUpperHex c = true) (pseudoHash input rnd).
Proof.
  intros Hrnd. unfold pseudoHash, toUpperCase.
  assert (Forall (fun c => isLowerHex c = true)
            (padStart 8 48 (toStringRadix 16 (pseudoHash_h input)) ++ slice 2 10 rnd)) as HF.
  { apply Forall_app. split.
    - unfold padStart. apply Forall_app. split.
      + apply Forall_replicate. reflexivity.
      + apply digitsRadix_16_hex, pseudoHash_h_range.
    - unfold slice. now apply Forall_take. }
  apply List.Forall_forall. intros c (c0 & <- & Hc0)%in_map_iff.
  apply isUpperHex_upperUnit. rewrite List.Forall_forall in HF. now apply HF.
Qed.

(** [pseudoHash_upper_hex] at the draw of the demo run. *)
Lemma pseudoHash_upper_hex_witness :
  Forall (fun c => isUpperHex c = true) (pseudoHash (js "GENESIS") demoDraw).
Proof.
  apply (pseudoHash_upper_hex (js "GENESIS") demoDraw).
  vm_compute. repeat constructor.
Defined.

(** ** Navigation buttons *)

(** With a user logged in and a view other than the login view shown: every
    control of the navigation bar (the logo and the buttons) is the Logout
    button, which shows the login view with nobody logged in, or shows the
    landing page, the explorer or the view of the user's own role and keeps
    the user; every button of the Landing page shows the explorer or that
    role's view; a click on any of them is an event of the component and
    leaves [products] and [chain] as they are; every view an event of
    navigation can lead to has its button in the bar, and so has Logout.
    The Landing page shows each of its buttons once; the navigation bar
    shows each once too, except to an admin, who gets the Admin button
    twice.  On the login view the bar has no button. *)
Theorem navigation_buttons `{Host} (st : AppState) (u : User) :
  user st = Some u -> view st <> view_login ->
  (forall b, b ∈ navLogo :: navButtons (view st) (user st) ->
     ((b = nav_logout
       /\ view (navClick b st) = view_login /\ user (navClick b st) = None)
      \/ exists v, b = nav_view v
           /\ (v = view_landing \/ v = view_explorer \/ v = view_role (u_role u))
           /\ view (navClick b st) = v /\ user (navClick b st) = Some u)
     /\ products (navClick b st) = products st /\ chain (navClick b st) = chain st
     /\ step st (navClick b st))
  /\ (forall v, v ∈ landingButtons (user st) ->
        (v = view_explorer \/ v = view_role (u_role u)) /\ step st (setView v st))
  /\ (forall v,
        v = view_landing \/ v = view_explorer \/ (exists r, v = view_role r /\ has_role r st) ->
        nav_view v ∈ navButtons (view st) (user st))
  /\ nav_logout ∈ navButtons (view st) (user st)
  /\ view_role (u_role u) ∈ landingButtons (user st)
  /\ List.NoDup (landingButtons (user st))
  /\ (u_role u <> admin -> List.NoDup (navButtons (view st) (user st)))
  /\ (u_role u = admin ->
      navButtons (view st) (user st)
      = [nav_view view_landing; nav_view (view_role admin); nav_view view_explorer;
         nav_view (view_role admin); nav_logout])
  /\ navButtons view_login (user st) = [].
Proof.
  intros Hu Hv.
  assert (forall v, v = view_landing \/ v = view_explorer \/ v = view_role (u_role u) ->
            step st (setView v st)) as Hnav.
  { intros v Hto. apply step_navigate; [exact Hv|].
    destruct Hto as [-> | [-> | ->]]; auto.
    right; right. exists (u_role u). split; [done|]. exists u. done. }
  assert (forall r, has_role r st -> r = u_role u) as Hrole.
  { intros r (u' & Hu' & <-). congruence. }
  pose proof (step_logout st Hv) as Hout.
  rewrite Hu. unfold navButtons, landingButtons, navLogo.
  rewrite (bool_decide_eq_false_2 (view st = view_login)) by exact Hv.
  rewrite (bool_decide_eq_true_2 (view_login = view_login)) by reflexivity.
  cbn [List.filter app].
  destruct (u_role u) eqn:Hr;
    repeat match goal with
           | |- context [bool_decide (?a = ?b)] =>
               first [ rewrite (bool_decide_eq_true_2 (a = b)) by reflexivity
                     | rewrite (bool_decide_eq_false_2 (a = b)) by discriminate ]
           end; cbn [app].
  all: split;
    [intros b Hb;
     repeat (apply elem_of_cons in Hb as [-> | Hb];
             [split; [first [left; repeat split; reflexivity
                            | right; eexists; split; [reflexivity|];
                              split; [auto|]; split; [reflexivity | exact Hu]]
                     | split; [reflexivity|]; split; [reflexivity|];
                       cbn [navClick]; first [exact Hout | apply Hnav; auto]]|]);
     now apply elem_of_nil in Hb|].
  all: split;
    [intros v Hb;
     repeat (apply elem_of_cons in Hb as [-> | Hb]; [split; [auto | apply Hnav; auto]|]);
     now apply elem_of_nil in Hb|].
  all: split;
    [intros v [-> | [-> | (r & -> & ->%Hrole)]];
     repeat first [apply list_elem_of_here | apply list_elem_of_further]|].
  all: split; [repeat first [apply list_elem_of_here | apply list_elem_of_further]|].
  all: split; [repeat first [apply list_elem_of_here | apply list_elem_of_further]|].
  all: split; [repeat constructor; cbn; intuition discriminate|].
  all: split; [first [intros _; repeat constructor; cbn; intuition discriminate
                     | intros Hne; now destruct Hne]|].
  all: split; [first [discriminate | reflexivity] | reflexivity].
Qed.

(** [navigation_buttons] at the demo run with broker1 logged in. *)
Lemma navigation_buttons_witness :
  navLogo :: navButtons (view demoBrokerState) (user demoBrokerState)
  = [nav_view view_landing; nav_view view_landing; nav_view (view_role broker);
     nav_view view_explorer; nav_logout]
  /\ @step decimalHost demoBrokerState (logout demoBrokerState)
  /\ @step decimalHost demoBrokerState (setView view_explorer demoBrokerState)
  /\ List.NoDup (navButtons (view demoBrokerState) (user demoBrokerState)).
Proof.
  destruct (@navigation_buttons decimalHost demoBrokerState
              (mkUser (js "B-001") (js "broker1") (js "password1") broker
                 (js "GreenSupply Pvt Ltd") None))
    as (Hbar & _ & _ & _ & _ & _ & Hnodup & _); [reflexivity | discriminate |].
  split; [reflexivity|].
  split; [apply (Hbar nav_logout); repeat first [apply list_elem_of_here
                                                 | apply list_elem_of_further]|].
  split; [apply (Hbar (nav_view view_explorer));
          repeat first [apply list_elem_of_here | apply list_elem_of_further]|].
  apply Hnodup. discriminate.
Defined.

Example navButtons_admin :
  navButtons (view_role admin) (List.find (fun u => bool_decide (u_role u = admin)) seedUsers)
  = [nav_view view_landing; nav_view (view_role admin); nav_view view_explorer;
     nav_view (view_role admin); nav_logout].
Proof. reflexivity. Qed.
